(** * DOMNavigator: arrow-key navigation over positioned elements

    A shallow embedding of [src/dom-navigator.js] (the [DOMNavigator] class of
    converse.js) and the properties of its nearest-neighbour selection, its
    scroll-into-view computation and its selection life cycle.

    Conventions of the embedding.
    - DOM offsets ([offsetLeft], [offsetTop], [offsetWidth], [offsetHeight],
      [scrollLeft], [scrollTop]) are integers of the host, modelled as [Z].
      Where the source mixes them with [Infinity], or reads them through a
      value that is not an element, the JavaScript number is modelled by
      [number], which adds the two infinities and [NaN]. Integer arithmetic
      is exact, as it is on JavaScript numbers at the size of a layout.
    - Bounding client rectangles and window sizes are taken in whole pixels.
    - An element is an object: [===] compares identity, modelled by [el_id].
    - A thrown exception is the [Throw] case of [result].
    - The instance fields and the part of the document the class touches form
      the record [World]; every method is a function on it. *)

From stdpp Require Import gmap strings list fin_maps.
From Stdlib Require Import ZArith Lia.

Local Open Scope string_scope.
Local Open Scope Z_scope.

(** ** JavaScript values used by the class *)

Module JS.

(** Numbers as the source computes with them: finite integers, the two
    infinities and [NaN]. *)
Inductive number : Type :=
| Fin (z : Z)
| PosInf
| NegInf
| NaN.

Definition neg (a : number) : number :=
  match a with
  | Fin z => Fin (- z)
  | PosInf => NegInf
  | NegInf => PosInf
  | NaN => NaN
  end.

Definition add (a b : number) : number :=
  match a, b with
  | NaN, _ | _, NaN => NaN
  | Fin x, Fin y => Fin (x + y)
  | PosInf, NegInf | NegInf, PosInf => NaN
  | PosInf, _ | _, PosInf => PosInf
  | NegInf, _ | _, NegInf => NegInf
  end.

Definition sub (a b : number) : number := add a (neg b).

(** [Math.abs] *)
Definition abs (a : number) : number :=
  match a with
  | Fin z => Fin (Z.abs z)
  | PosInf | NegInf => PosInf
  | NaN => NaN
  end.

(** [a < b]; every comparison with [NaN] is false. *)
Definition ltb (a b : number) : bool :=
  match a, b with
  | NaN, _ | _, NaN => false
  | Fin x, Fin y => x <? y
  | NegInf, NegInf => false
  | NegInf, _ => true
  | _, NegInf => false
  | PosInf, _ => false
  | Fin _, PosInf => true
  end.

Definition eqb (a b : number) : bool :=
  match a, b with
  | Fin x, Fin y => x =? y
  | PosInf, PosInf | NegInf, NegInf => true
  | _, _ => false
  end.

(** [a <= b] and [a >= b] *)
Definition leb (a b : number) : bool := ltb a b || eqb a b.
Definition geb (a b : number) : bool := leb b a.

(** Exceptions the class can raise: the [TypeError] of a property read on
    [null] or [undefined], and [new Error(msg)]. *)
Inductive exn : Type :=
| TypeError
| Error (msg : string).

Inductive result (A : Type) : Type :=
| Ok (a : A)
| Throw (e : exn).
Arguments Ok {A} a.
Arguments Throw {A} e.

Definition bind {A B} (m : result A) (k : A -> result B) : result B :=
  match m with
  | Ok a => k a
  | Throw e => Throw e
  end.

End JS.

Import JS.

Notation "'let!' x ':=' m 'in' k" := (bind m (fun x => k))
  (at level 10, x name, m at level 100, k at level 200).

(** ** Elements and their geometry *)

(** An element with the layout offsets the class reads. [offsetParent] is the
    positioned ancestor the offsets are relative to; the chain is finite and
    ends at the root, whose [offsetParent] is [null]. *)
#[warnings="-register-all"]
Inductive Element : Type :=
  mkElement {
    el_id : nat;
    offsetLeft : Z;
    offsetTop : Z;
    offsetWidth : Z;
    offsetHeight : Z;
    matches_input : bool;
    offsetParent : option Element
  }.

(** [a === b] on two elements *)
Definition same_element (a b : Element) : bool := Nat.eqb (el_id a) (el_id b).

(** What [el.getBoundingClientRect()] reports. *)
Record ClientRect : Type :=
  mkRect { rect_top : Z; rect_left : Z; rect_bottom : Z; rect_right : Z }.

(** The value held by [this.selected]. The class declares a method
    [selected ()] on its prototype; [init] shadows it with the own property
    [null], [select] with an element, and [unselect] removes the own property
    with [delete], after which a read of [this.selected] finds the prototype's
    method again: a function, truthy, and not an element. *)
Inductive Selected : Type :=
| Null
| Elem (e : Element)
| Method.

Definition truthy (v : Selected) : bool :=
  match v with
  | Null => false
  | Elem _ | Method => true
  end.

(** [el === this.selected] for an element [el] *)
Definition is_selected (el : Element) (v : Selected) : bool :=
  match v with
  | Elem e => same_element el e
  | Null | Method => false
  end.

(** [v.offsetLeft], [v.offsetTop], [v.offsetHeight] for [v = this.selected]:
    a [TypeError] on [null], [undefined] on the method, which every
    arithmetic use below turns into [NaN]. *)
Definition read_offset (f : Element -> Z) (v : Selected) : result number :=
  match v with
  | Null => Throw TypeError
  | Elem e => Ok (Fin (f e))
  | Method => Ok NaN
  end.

(** ** Directions *)

Module DIRECTION.
Definition left : string := "left".
Definition up : string := "up".
Definition right : string := "right".
Definition down : string := "down".
End DIRECTION.

(** ** Nearest-neighbour selection *)

(** [elementsAfter(left, top)] on the scanned elements *)
Definition elementsAfter (els : list Element) (left top : number)
  : list Element :=
  List.filter
    (fun el => geb (Fin (offsetLeft el)) left && geb (Fin (offsetTop el)) top)
    els.

(** [elementsBefore(left, top)] on the scanned elements *)
Definition elementsBefore (els : list Element) (left top : number)
  : list Element :=
  List.filter
    (fun el => leb (Fin (offsetLeft el)) left && leb (Fin (offsetTop el)) top)
    els.

(** The accumulator of the [reduce] in [getNextElement]:
    [{distance, element}], [element] missing in the initial value. *)
Record Nearest : Type :=
  mkNearest { distance : number; element : option Element }.

Definition nearer (getDistance : Element -> number)
  (prev : Nearest) (curr : Element) : Nearest :=
  let current_distance := getDistance curr in
  if ltb current_distance (distance prev)
  then {| distance := current_distance; element := Some curr |}
  else prev.

Definition reduce_nearest (getDistance : Element -> number)
  (els : list Element) : Nearest :=
  fold_left (nearer getDistance) els
    {| distance := PosInf; element := None |}.

(** The distance closures of the two vertical directions. *)
Definition distance_down (left top : number) (el : Element) : number :=
  add (abs (sub (Fin (offsetLeft el)) left))
      (abs (sub (Fin (offsetTop el)) top)).

Definition distance_up (left top : number) (el : Element) : number :=
  add (abs (sub left (Fin (offsetLeft el))))
      (abs (sub top (Fin (offsetTop el)))).

(** ** The navigator and the document it acts on *)

(** [this.options]: [DEFAULTS] overridden by the caller's options. *)
Record Options : Type :=
  mkOptions {
    opt_selected : string;
    opt_selector : string;
    opt_left : Z;
    opt_up : Z;
    opt_right : Z;
    opt_down : Z
  }.

Definition DEFAULTS : Options :=
  {| opt_selected := "selected"; opt_selector := "li";
     opt_left := 37; opt_up := 38; opt_right := 39; opt_down := 40 |}.

(** The options a caller passes; a missing property is [None]. *)
Record UserOptions : Type :=
  mkUserOptions {
    user_selected : option string;
    user_selector : option string;
    user_left : option Z;
    user_up : option Z;
    user_right : option Z;
    user_down : option Z
  }.

Definition no_options : UserOptions :=
  {| user_selected := None; user_selector := None; user_left := None;
     user_up := None; user_right := None; user_down := None |}.

(** [Object.assign({}, DOMNavigator.DEFAULTS, options)] *)
Definition assign_defaults (u : UserOptions) : Options :=
  {| opt_selected := default (opt_selected DEFAULTS) (user_selected u);
     opt_selector := default (opt_selector DEFAULTS) (user_selector u);
     opt_left := default (opt_left DEFAULTS) (user_left u);
     opt_up := default (opt_up DEFAULTS) (user_up u);
     opt_right := default (opt_right DEFAULTS) (user_right u);
     opt_down := default (opt_down DEFAULTS) (user_down u) |}.

(** The instance fields. A closure is an object too: [keydownHandler] holds
    its identity. [enabled] and [elements] are not set by the constructor and
    stay [undefined] ([None]) until [enable] or [getElements] assign them. *)
Record Navigator : Type :=
  mkNavigator {
    options : Options;
    selected : Selected;
    keydownHandler : option nat;
    keys : gmap Z string;
    enabled : option bool;
    elements : option (list Element)
  }.

(** The scroll container: its layout box and its scroll position. *)
Record Scroller : Type :=
  mkScroller {
    box_offsetLeft : Z;
    box_offsetTop : Z;
    box_offsetWidth : Z;
    box_offsetHeight : Z;
    scrollLeft : Z;
    scrollTop : Z
  }.

(** What the host reports and the class only reads: the window and document
    sizes, the body's offsets, each element's bounding client rectangle, and
    the result of [container.querySelectorAll(selector)], in document
    order. *)
Record Host : Type :=
  mkHost {
    innerWidth : Z;
    innerHeight : Z;
    clientWidth : Z;
    clientHeight : Z;
    body_offsetLeft : Z;
    body_offsetTop : Z;
    getBoundingClientRect : nat -> ClientRect;
    querySelectorAll : list Element
  }.

(** Calls to the collaborators, in the order they happen. *)
Inductive Effect : Type :=
| Log (msg : string)
| AddClass (cls : string) (id : nat)
| RemoveClass (cls : string) (target : option nat)
| Focus (id : nat)
| ScrollTo (id : nat) (direction : string)
| PreventDefault.

(** The navigator, and the state of the document it reads and writes:
    the [keydown] listeners of the document, the allocator of closure
    identities, the elements that carry the class [options.selected], the
    focused element, the scroll container, the body's scroll position and
    whether the container still has its [domNavigator] property.
    [scroll_container] is the object [this.scroll_container] refers to:
    [options.scroll_container], or the navigated container when the caller
    gives none. *)
Record World : Type :=
  mkWorld {
    nav : Navigator;
    host : Host;
    listeners : list nat;
    next_closure : nat;
    classes : gset nat;
    activeElement : option nat;
    scroll_container : Scroller;
    body_scrollLeft : Z;
    body_scrollTop : Z;
    domNavigator : bool;
    trace : list Effect
  }.

(** *** Field updates *)

Definition with_selected (v : Selected) (n : Navigator) : Navigator :=
  {| options := options n; selected := v; keydownHandler := keydownHandler n;
     keys := keys n; enabled := enabled n; elements := elements n |}.

Definition with_keydownHandler (h : option nat) (n : Navigator) : Navigator :=
  {| options := options n; selected := selected n; keydownHandler := h;
     keys := keys n; enabled := enabled n; elements := elements n |}.

Definition with_enabled (b : bool) (n : Navigator) : Navigator :=
  {| options := options n; selected := selected n;
     keydownHandler := keydownHandler n;
     keys := keys n; enabled := Some b; elements := elements n |}.

Definition with_elements (els : list Element) (n : Navigator) : Navigator :=
  {| options := options n; selected := selected n;
     keydownHandler := keydownHandler n;
     keys := keys n; enabled := enabled n; elements := Some els |}.

Definition with_scrollLeft (z : Z) (c : Scroller) : Scroller :=
  {| box_offsetLeft := box_offsetLeft c; box_offsetTop := box_offsetTop c;
     box_offsetWidth := box_offsetWidth c;
     box_offsetHeight := box_offsetHeight c;
     scrollLeft := z; scrollTop := scrollTop c |}.

Definition with_scrollTop (z : Z) (c : Scroller) : Scroller :=
  {| box_offsetLeft := box_offsetLeft c; box_offsetTop := box_offsetTop c;
     box_offsetWidth := box_offsetWidth c;
     box_offsetHeight := box_offsetHeight c;
     scrollLeft := scrollLeft c; scrollTop := z |}.

Definition update_nav (f : Navigator -> Navigator) (w : World) : World :=
  {| nav := f (nav w); host := host w; listeners := listeners w;
     next_closure := next_closure w; classes := classes w;
     activeElement := activeElement w;
     scroll_container := scroll_container w;
     body_scrollLeft := body_scrollLeft w; body_scrollTop := body_scrollTop w;
     domNavigator := domNavigator w; trace := trace w |}.

Definition update_listeners (f : list nat -> list nat) (w : World) : World :=
  {| nav := nav w; host := host w; listeners := f (listeners w);
     next_closure := next_closure w; classes := classes w;
     activeElement := activeElement w;
     scroll_container := scroll_container w;
     body_scrollLeft := body_scrollLeft w; body_scrollTop := body_scrollTop w;
     domNavigator := domNavigator w; trace := trace w |}.

Definition update_classes (f : gset nat -> gset nat) (w : World) : World :=
  {| nav := nav w; host := host w; listeners := listeners w;
     next_closure := next_closure w; classes := f (classes w);
     activeElement := activeElement w;
     scroll_container := scroll_container w;
     body_scrollLeft := body_scrollLeft w; body_scrollTop := body_scrollTop w;
     domNavigator := domNavigator w; trace := trace w |}.

Definition with_activeElement (id : nat) (w : World) : World :=
  {| nav := nav w; host := host w; listeners := listeners w;
     next_closure := next_closure w; classes := classes w;
     activeElement := Some id;
     scroll_container := scroll_container w;
     body_scrollLeft := body_scrollLeft w; body_scrollTop := body_scrollTop w;
     domNavigator := domNavigator w; trace := trace w |}.

Definition update_scroll_container (f : Scroller -> Scroller) (w : World)
  : World :=
  {| nav := nav w; host := host w; listeners := listeners w;
     next_closure := next_closure w; classes := classes w;
     activeElement := activeElement w;
     scroll_container := f (scroll_container w);
     body_scrollLeft := body_scrollLeft w; body_scrollTop := body_scrollTop w;
     domNavigator := domNavigator w; trace := trace w |}.

Definition with_body_scrollLeft (z : Z) (w : World) : World :=
  {| nav := nav w; host := host w; listeners := listeners w;
     next_closure := next_closure w; classes := classes w;
     activeElement := activeElement w;
     scroll_container := scroll_container w;
     body_scrollLeft := z; body_scrollTop := body_scrollTop w;
     domNavigator := domNavigator w; trace := trace w |}.

Definition with_body_scrollTop (z : Z) (w : World) : World :=
  {| nav := nav w; host := host w; listeners := listeners w;
     next_closure := next_closure w; classes := classes w;
     activeElement := activeElement w;
     scroll_container := scroll_container w;
     body_scrollLeft := body_scrollLeft w; body_scrollTop := z;
     domNavigator := domNavigator w; trace := trace w |}.

Definition with_domNavigator (b : bool) (w : World) : World :=
  {| nav := nav w; host := host w; listeners := listeners w;
     next_closure := next_closure w; classes := classes w;
     activeElement := activeElement w;
     scroll_container := scroll_container w;
     body_scrollLeft := body_scrollLeft w; body_scrollTop := body_scrollTop w;
     domNavigator := b; trace := trace w |}.

Definition new_closure (w : World) : World :=
  {| nav := nav w; host := host w; listeners := listeners w;
     next_closure := S (next_closure w); classes := classes w;
     activeElement := activeElement w;
     scroll_container := scroll_container w;
     body_scrollLeft := body_scrollLeft w; body_scrollTop := body_scrollTop w;
     domNavigator := domNavigator w; trace := trace w |}.

(** Record one call to a collaborator. *)
Definition emit (e : Effect) (w : World) : World :=
  {| nav := nav w; host := host w; listeners := listeners w;
     next_closure := next_closure w; classes := classes w;
     activeElement := activeElement w;
     scroll_container := scroll_container w;
     body_scrollLeft := body_scrollLeft w; body_scrollTop := body_scrollTop w;
     domNavigator := domNavigator w; trace := trace w ++ [e] |}.

(** ** Collaborators outside the class *)

(** Modelled from the spec: [u.addClass] of [./utils/html], which is not
    under [src/]. The visual-effect capability "apply a highlight marker on a
    given element": the element joins those that carry the class. *)
Definition u_addClass (cls : string) (el : Element) (w : World) : World :=
  update_classes (fun s => {[el_id el]} ∪ s) (emit (AddClass cls (el_id el)) w).

(** Modelled from the spec: [u.removeClass] of [./utils/html], which is not
    under [src/]. The visual-effect capability "remove a highlight marker on a
    given element"; handed the value of [this.selected] when that is not an
    element, it has no element to take the marker from. *)
Definition u_removeClass (cls : string) (v : Selected) (w : World) : World :=
  match v with
  | Elem el =>
      update_classes (fun s => s ∖ {[el_id el]})
        (emit (RemoveClass cls (Some (el_id el))) w)
  | Null | Method => emit (RemoveClass cls None) w
  end.

(** [el.focus()] of the host, the visual-effect capability "move input
    focus": the element becomes the focused element of the document. *)
Definition focus (el : Element) (w : World) : World :=
  with_activeElement (el_id el) (emit (Focus (el_id el)) w).

(** Modelled from the spec: [log.info] of [@converse/headless/log], which is
    not under [src/]. The specification gives it no effect on the navigator
    or on the document; the call is only recorded. *)
Definition log_info (msg : string) (w : World) : World := emit (Log msg) w.

(** The candidate right after the first occurrence of [sel] in [els]. *)
Fixpoint following (sel : Element) (els : list Element) : option Element :=
  match els with
  | [] => None
  | x :: rest =>
      if same_element x sel then head rest else following sel rest
  end.

(** The candidate right before the first occurrence of [sel] in [els]. *)
Fixpoint preceding (sel : Element) (els : list Element) : option Element :=
  match els with
  | [] => None
  | x :: rest =>
      if same_element x sel then None
      else match rest with
           | [] => None
           | y :: _ => if same_element y sel then Some x else preceding sel rest
           end
  end.

(** Modelled from the spec: [u.getNextElement] of [./utils/html], which is
    not under [src/]. "Right: target = the candidate immediately following
    the current selection in sequence order. Neither wraps around; at the
    last position, result is absent." The sequence is the one of the last
    scan; a value that is no candidate has no follower. *)
Definition u_getNextElement (v : Selected) (n : Navigator) : option Element :=
  match v with
  | Elem sel => following sel (default [] (elements n))
  | Null | Method => None
  end.

(** Modelled from the spec: [u.getPreviousElement] of [./utils/html], which
    is not under [src/]. "Left: target = the candidate immediately preceding.
    Neither wraps around; at the first position, result is absent." *)
Definition u_getPreviousElement (v : Selected) (n : Navigator)
  : option Element :=
  match v with
  | Elem sel => preceding sel (default [] (elements n))
  | Null | Method => None
  end.

(** [document.addEventListener('keydown', h)]: a listener that is already
    registered is not added again. *)
Definition addEventListener (h : nat) (w : World) : World :=
  update_listeners (fun l => if bool_decide (h ∈ l) then l else (l ++ [h])%list) w.

(** [document.removeEventListener('keydown', h)] *)
Definition removeEventListener (h : nat) (w : World) : World :=
  update_listeners (List.filter (fun x => negb (Nat.eqb x h))) w.

(** ** Module-level functions *)

(** [inViewport(el)] *)
Definition inViewport (el : Element) (w : World) : bool :=
  let rect := getBoundingClientRect (host w) (el_id el) in
  (rect_top rect >=? 0) && (rect_left rect >=? 0)
  && (rect_bottom rect <=? innerHeight (host w))
  && (rect_right rect <=? innerWidth (host w)).

(** [absoluteOffsetTop(el)]: the [do ... while] walk up the [offsetParent]
    chain. An integer offset is never [NaN], so the guard always adds. *)
Fixpoint absoluteOffsetTop (el : Element) : Z :=
  match el with
  | mkElement _ _ y _ _ _ parent =>
      y + match parent with
            | Some p => absoluteOffsetTop p
            | None => 0
            end
  end.

(** [absoluteOffsetLeft(el)] *)
Fixpoint absoluteOffsetLeft (el : Element) : Z :=
  match el with
  | mkElement _ x _ _ _ _ parent =>
      x + match parent with
             | Some p => absoluteOffsetLeft p
             | None => 0
             end
  end.

(** ** The class [DOMNavigator] *)

(** [this.elements.filter(...)] and [this.elements[0]] need the array. *)
Definition the_elements (n : Navigator) : result (list Element) :=
  match elements n with
  | Some els => Ok els
  | None => Throw TypeError
  end.

(** [init]: the hotkeys map, filled in the order left, up, right, down. *)
Definition init_keys (o : Options) : gmap Z string :=
  <[opt_down o := DIRECTION.down]>
    (<[opt_right o := DIRECTION.right]>
       (<[opt_up o := DIRECTION.up]>
          (<[opt_left o := DIRECTION.left]> ∅))).

(** [new DOMNavigator(container, options)]: the fields after [init]. *)
Definition constructor (u : UserOptions) : Navigator :=
  {| options := assign_defaults u; selected := Null; keydownHandler := None;
     keys := init_keys (assign_defaults u);
     enabled := None; elements := None |}.

(** [getNextElement(direction)] *)
Definition getNextElement (n : Navigator) (direction : string)
  : result (option Element) :=
  if String.eqb direction DIRECTION.right then
    Ok (u_getNextElement (selected n) n)
  else if String.eqb direction DIRECTION.left then
    Ok (u_getPreviousElement (selected n) n)
  else if String.eqb direction DIRECTION.down then
    let! left := read_offset offsetLeft (selected n) in
    let! t := read_offset offsetTop (selected n) in
    let! h := read_offset offsetHeight (selected n) in
    let top := add t h in
    let! all := the_elements n in
    let els := elementsAfter all (Fin 0) top in
    Ok (element (reduce_nearest (distance_down left top) els))
  else if String.eqb direction DIRECTION.up then
    let! left := read_offset offsetLeft (selected n) in
    let! t := read_offset offsetTop (selected n) in
    let top := sub t (Fin 1) in
    let! all := the_elements n in
    let els := elementsBefore all PosInf top in
    Ok (element (reduce_nearest (distance_up left top) els))
  else Throw (Error "getNextElement: invalid direction value").

(** [inScrollContainerViewport(el)] *)
Definition inScrollContainerViewport (el : Element) (w : World) : bool :=
  let container := scroll_container w in
  if offsetLeft el - scrollLeft container <? box_offsetLeft container
  then false
  else if offsetTop el - scrollTop container <? box_offsetTop container
  then false
  else if offsetLeft el + offsetWidth el - scrollLeft container
          >? box_offsetLeft container + box_offsetWidth container
  then false
  else if offsetTop el + offsetHeight el - scrollTop container
          >? box_offsetTop container + box_offsetHeight container
  then false
  else true.

(** [scrollTo(el, direction)]; a direction outside the four cases falls
    through both [switch]es. *)
Definition scrollTo (el : Element) (direction : string) (w0 : World) : World :=
  let w := emit (ScrollTo (el_id el) direction) w0 in
  if negb (inScrollContainerViewport el w) then
    let container := scroll_container w in
    if String.eqb direction DIRECTION.left then
      update_scroll_container
        (with_scrollLeft (offsetLeft el - box_offsetLeft container)) w
    else if String.eqb direction DIRECTION.up then
      update_scroll_container
        (with_scrollTop (offsetTop el - box_offsetTop container)) w
    else if String.eqb direction DIRECTION.right then
      update_scroll_container
        (with_scrollLeft
           (offsetLeft el - box_offsetLeft container
            - (box_offsetWidth container - offsetWidth el))) w
    else if String.eqb direction DIRECTION.down then
      update_scroll_container
        (with_scrollTop
           (offsetTop el - box_offsetTop container
            - (box_offsetHeight container - offsetHeight el))) w
    else w
  else if negb (inViewport el w) then
    if String.eqb direction DIRECTION.left then
      with_body_scrollLeft
        (absoluteOffsetLeft el - body_offsetLeft (host w)) w
    else if String.eqb direction DIRECTION.up then
      with_body_scrollTop
        (absoluteOffsetTop el - body_offsetTop (host w)) w
    else if String.eqb direction DIRECTION.right then
      with_body_scrollLeft
        (absoluteOffsetLeft el - body_offsetLeft (host w)
         - (clientWidth (host w) - offsetWidth el)) w
    else if String.eqb direction DIRECTION.down then
      with_body_scrollTop
        (absoluteOffsetTop el - body_offsetTop (host w)
         - (clientHeight (host w) - offsetHeight el)) w
    else w
  else w.

(** [unselect()] *)
Definition unselect (w : World) : World :=
  if truthy (selected (nav w)) then
    let w1 :=
      u_removeClass (opt_selected (options (nav w))) (selected (nav w)) w in
    update_nav (with_selected Method) w1
  else w.

(** A direction argument as [select] tests it: an omitted argument and the
    empty string are falsy. *)
Definition given (direction : option string) : option string :=
  match direction with
  | Some d => if String.eqb d "" then None else Some d
  | None => None
  end.

(** [select(el, direction)]; [el] is [None] for [null] or [undefined]. *)
Definition select (el : option Element) (direction : option string)
  (w : World) : World :=
  match el with
  | None => w
  | Some el =>
      if is_selected el (selected (nav w)) then w
      else
        let w1 := unselect w in
        let w2 := match given direction with
                  | Some d => scrollTo el d w1
                  | None => w1
                  end in
        let w3 := if matches_input el
                  then focus el w2
                  else u_addClass (opt_selected (options (nav w2))) el w2 in
        update_nav (with_selected (Elem el)) w3
  end.

(** [getElements()] *)
Definition getElements (w : World) : World :=
  update_nav (with_elements (querySelectorAll (host w))) w.

(** [handleKeydown(event)], with [which = event.which]. *)
Definition handleKeydown (which : Z) (w0 : World) : result World :=
  let w := log_info "handleKeydown" w0 in
  match given (keys (nav w) !! which) with
  | Some direction =>
      let w1 := emit PreventDefault w in
      let! next :=
        if truthy (selected (nav w1))
        then getNextElement (nav w1) direction
        else (let! all := the_elements (nav w1) in Ok (head all)) in
      Ok (select next (Some direction) w1)
  | None => Ok w
  end.

(** [enable()]: every call builds a new closure for [keydownHandler]. *)
Definition enable (w0 : World) : World :=
  let w := getElements (log_info "enable" w0) in
  let h := next_closure w in
  let w1 := update_nav (with_keydownHandler (Some h)) (new_closure w) in
  let w2 := addEventListener h w1 in
  update_nav (with_enabled true) w2.

(** [disable()] *)
Definition disable (w0 : World) : World :=
  let w := log_info "disable" w0 in
  let w1 := match keydownHandler (nav w) with
            | Some h => removeEventListener h w
            | None => w
            end in
  update_nav (with_enabled false) (unselect w1).

(** [destroy()] *)
Definition destroy (w : World) : World :=
  let w1 := disable w in
  if domNavigator w1 then with_domNavigator false w1 else w1.

(** ** Vocabulary of the specification *)

(** Manhattan distance from the anchor [(ax, ay)] to a candidate. *)
Definition manhattan (ax ay : Z) (el : Element) : Z :=
  Z.abs (offsetLeft el - ax) + Z.abs (offsetTop el - ay).

(** [r] is the nearest of [cands] for the measure [d], the earliest one among
    those at the least distance; absent exactly when there is no candidate. *)
Definition first_nearest (d : Element -> Z) (cands : list Element)
  (r : option Element) : Prop :=
  match r with
  | None => cands = []
  | Some e =>
      exists before after,
        cands = (before ++ e :: after)%list
        /\ (forall x, In x before -> d e < d x)
        /\ (forall x, In x after -> d e <= d x)
  end.

(** The accumulator of the reduction is coherent for the measure [d]: its
    distance is the one of its element, infinite while it has none. *)
Definition coherent (d : Element -> Z) (acc : Nearest) : Prop :=
  distance acc =
    match element acc with
    | Some e => Fin (d e)
    | None => PosInf
    end.

(** The candidates the specification keeps for Down and for Up: a test on the
    top offset alone. *)
Definition at_or_below (ay : Z) (els : list Element) : list Element :=
  List.filter (fun c => ay <=? offsetTop c) els.

Definition at_or_above (ay : Z) (els : list Element) : list Element :=
  List.filter (fun c => offsetTop c <=? ay) els.

(** The four scroll positions the class can write. *)
Definition scroll_state (w : World) : Z * Z * Z * Z :=
  (scrollLeft (scroll_container w), scrollTop (scroll_container w),
   body_scrollLeft w, body_scrollTop w).


(** Applications of the marker (class added or focus moved) and invocations
    of [scrollTo] in a stretch of the trace. *)
Definition is_marker_application (e : Effect) : bool :=
  match e with
  | AddClass _ _ | Focus _ => true
  | _ => false
  end.

Definition is_scroll_invocation (e : Effect) : bool :=
  match e with
  | ScrollTo _ _ => true
  | _ => false
  end.

Definition marker_applications (t : list Effect) : nat :=
  length (List.filter is_marker_application t).

Definition scroll_invocations (t : list Effect) : nat :=
  length (List.filter is_scroll_invocation t).

(** Every registered listener is a closure that was allocated before. *)
Definition closures_allocated (w : World) : Prop :=
  forall h, In h (listeners w) -> (h < next_closure w)%nat.



(** The calls a client or the host can make on a navigator. *)
Inductive Call : Type :=
| CallEnable
| CallDisable
| CallDestroy
| CallGetElements
| CallSelect (el : option Element) (direction : option string)
| CallUnselect
| CallKeydown (which : Z).

(** One completed call. A [keydown] whose handler throws leaves everything
    but the trace as it was and is not a step. *)
Inductive step : World -> Call -> World -> Prop :=
| step_enable w : step w CallEnable (enable w)
| step_disable w : step w CallDisable (disable w)
| step_destroy w : step w CallDestroy (destroy w)
| step_getElements w : step w CallGetElements (getElements w)
| step_select w el d : step w (CallSelect el d) (select el d w)
| step_unselect w : step w CallUnselect (unselect w)
| step_keydown w k w' :
    handleKeydown k w = Ok w' -> step w (CallKeydown k) w'.

(** The states a navigator goes through from [w0]. *)
Inductive reachable (w0 : World) : World -> Prop :=
| reachable_start : reachable w0 w0
| reachable_step w c w' : reachable w0 w -> step w c w' -> reachable w0 w'.


(** ** Sample documents *)

Definition item (id : nat) (x y : Z) : Element :=
  mkElement id x y 100 50 false None.

Definition input_item (id : nat) (x y : Z) : Element :=
  mkElement id x y 100 50 true None.

(** Four items of 100 by 50 at (0,0), (100,0), (0,50), (100,50). *)
Definition grid : list Element :=
  [item 0 0 0; item 1 100 0; item 2 0 50; item 3 100 50].

Definition sample_host (els : list Element) : Host :=
  {| innerWidth := 1000; innerHeight := 1000;
     clientWidth := 1000; clientHeight := 1000;
     body_offsetLeft := 0; body_offsetTop := 0;
     getBoundingClientRect := fun _ => mkRect 0 0 50 100;
     querySelectorAll := els |}.

(** A container of 200 by 100 at the origin, scrolled to [(sl, st)]. *)
Definition sample_container (sl st : Z) : Scroller :=
  {| box_offsetLeft := 0; box_offsetTop := 0;
     box_offsetWidth := 200; box_offsetHeight := 100;
     scrollLeft := sl; scrollTop := st |}.

(** The world right after [new DOMNavigator(container, {})]. *)
Definition fresh_world (els : list Element) (c : Scroller) : World :=
  {| nav := constructor no_options; host := sample_host els;
     listeners := []; next_closure := 0; classes := ∅;
     activeElement := None; scroll_container := c;
     body_scrollLeft := 0; body_scrollTop := 0;
     domNavigator := true; trace := [] |}.

(** A navigator that has scanned [els] and holds [v] in [this.selected]. *)
Definition scanned (els : list Element) (v : Selected) : Navigator :=
  with_selected v (with_elements els (constructor no_options)).

(** An item placed left of the origin, next to one further right, both just
    below the first item of the grid. *)
Definition overhang : list Element :=
  [item 0 0 0; item 1 (-5) 50; item 2 100 50].

(** The grid, enabled, its last item selected by the program. *)
Definition grid_last_selected : World :=
  select (Some (item 3 100 50)) None
    (enable (fresh_world grid (sample_container 0 0))).

(** The grid, enabled, nothing selected, the container scrolled down by 100:
    the first item lies above what the container shows. *)
Definition grid_scrolled_past : World :=
  enable (fresh_world grid (sample_container 0 100)).

(** An item at (0, 200) in a container of height 100 scrolled down by 50:
    its bottom edge lies below what the container shows. *)
Definition far_item : Element := item 5 0 200.

Definition list_scrolled_halfway : World :=
  fresh_world [item 4 0 0; far_item] (sample_container 0 50).

(** A text input followed by a plain item. *)
Definition form : list Element := [input_item 0 0 0; item 1 0 50].

Definition form_world : World :=
  enable (fresh_world form (sample_container 0 0)).

(** ** The selection query, and vocabulary for the life cycle *)

(** A call [nav.selected()] of the method declared at lines 204-206. The
    call reads the property [selected] first: while the own property set by
    [init] or [select] shadows the method, the value read is [null] or an
    element, which is not callable; only after [delete this.selected] does
    the call reach the method, which returns [this.selected], the method
    itself. *)
Definition selected_method (n : Navigator) : result Selected :=
  match selected n with
  | Null | Elem _ => Throw TypeError
  | Method => Ok (selected n)
  end.

(** Everything about the navigator and the document that is not the
    selection, its markers, the scroll positions or the trace. *)
Definition same_wiring (w w' : World) : Prop :=
  host w' = host w
  /\ listeners w' = listeners w
  /\ next_closure w' = next_closure w
  /\ domNavigator w' = domNavigator w
  /\ options (nav w') = options (nav w)
  /\ keydownHandler (nav w') = keydownHandler (nav w)
  /\ keys (nav w') = keys (nav w)
  /\ enabled (nav w') = enabled (nav w)
  /\ elements (nav w') = elements (nav w).

(** The registered listeners are distinct closures allocated earlier, and so
    is the closure kept in [keydownHandler]. *)
Definition listeners_wellformed (w : World) : Prop :=
  closures_allocated w
  /\ List.NoDup (listeners w)
  /\ (forall h, keydownHandler (nav w) = Some h -> (h < next_closure w)%nat).

(** One of the four strings of [DOMNavigator.DIRECTION]. *)
Definition is_direction (d : string) : Prop :=
  d = DIRECTION.left \/ d = DIRECTION.up
  \/ d = DIRECTION.right \/ d = DIRECTION.down.

(** The element lies between the left and right edges, and between the top
    and bottom edges, of what the scroll container shows. *)
Definition within_horizontally (el : Element) (c : Scroller) : Prop :=
  box_offsetLeft c <= offsetLeft el - scrollLeft c
  /\ offsetLeft el + offsetWidth el - scrollLeft c
     <= box_offsetLeft c + box_offsetWidth c.

Definition within_vertically (el : Element) (c : Scroller) : Prop :=
  box_offsetTop c <= offsetTop el - scrollTop c
  /\ offsetTop el + offsetHeight el - scrollTop c
     <= box_offsetTop c + box_offsetHeight c.

(** An item of the grid's size nested in a positioned ancestor. *)
Definition nested_item (id : nat) (x y : Z) (parent : Element) : Element :=
  mkElement id x y 100 50 false (Some parent).

(** An item at (5, 30) inside a box at (0, 200) inside a box at (0, 1000). *)
Definition deep_item : Element :=
  nested_item 9 5 30 (nested_item 8 0 200 (item 7 0 1000)).

(** A window 600 high over a body offset by 8; the container shows
    [deep_item], the window does not: its rectangle starts at 1230. *)
Definition page_world : World :=
  {| nav := constructor no_options;
     host := {| innerWidth := 1000; innerHeight := 600;
                clientWidth := 1000; clientHeight := 600;
                body_offsetLeft := 0; body_offsetTop := 8;
                getBoundingClientRect := fun _ => mkRect 1230 5 1280 105;
                querySelectorAll := [deep_item] |};
     listeners := []; next_closure := 0; classes := ∅;
     activeElement := None; scroll_container := sample_container 0 0;
     body_scrollLeft := 0; body_scrollTop := 0;
     domNavigator := true; trace := [] |}.

(** * Properties *)

(** Case analysis on every test of a conditional left in the goal. *)
Ltac destruct_ifs :=
  repeat match goal with
         | |- context [if ?b then _ else _] => destruct b
         end.

(** ** Numbers *)

Lemma geb_Fin (a b : Z) : geb (Fin a) (Fin b) = (b <=? a).
Proof.
  unfold geb, leb; simpl.
  destruct (Z.ltb_spec b a), (Z.eqb_spec b a), (Z.leb_spec b a);
    simpl; auto; lia.
Qed.

Lemma leb_Fin (a b : Z) : leb (Fin a) (Fin b) = (a <=? b).
Proof.
  unfold leb; simpl.
  destruct (Z.ltb_spec a b), (Z.eqb_spec a b), (Z.leb_spec a b);
    simpl; auto; lia.
Qed.

Lemma leb_Fin_PosInf (a : Z) : leb (Fin a) PosInf = true.
Proof. reflexivity. Qed.

Lemma distance_down_Fin (ax ay : Z) (el : Element) :
  distance_down (Fin ax) (Fin ay) el = Fin (manhattan ax ay el).
Proof. unfold distance_down, manhattan; simpl. f_equal. Qed.

Lemma distance_up_Fin (ax ay : Z) (el : Element) :
  distance_up (Fin ax) (Fin ay) el = Fin (manhattan ax ay el).
Proof. unfold distance_up, manhattan; simpl. f_equal. lia. Qed.

(** ** The reduction of [getNextElement] *)

Section Reduce.

Variable getDistance : Element -> number.
Variable d : Element -> Z.
Hypothesis getDistance_finite : forall el, getDistance el = Fin (d el).

Lemma reduce_nearest_snoc (els : list Element) (x : Element) :
  reduce_nearest getDistance (els ++ [x])
  = nearer getDistance (reduce_nearest getDistance els) x.
Proof. unfold reduce_nearest. apply fold_left_app. Qed.

Lemma reduce_nearest_first (els : list Element) :
  coherent d (reduce_nearest getDistance els)
  /\ first_nearest d els (element (reduce_nearest getDistance els)).
Proof.
  induction els as [|x els [Hcoh Hfirst]] using rev_ind.
  - split; reflexivity.
  - rewrite reduce_nearest_snoc.
    remember (reduce_nearest getDistance els) as acc eqn:Eacc.
    unfold nearer, coherent in *.
    rewrite getDistance_finite, Hcoh.
    destruct (element acc) as [e|] eqn:Ee; simpl in *.
    + destruct Hfirst as (before & after & -> & Hb & Ha).
      destruct (Z.ltb_spec (d x) (d e)) as [Hlt|Hge]; simpl.
      * split; [reflexivity|].
        exists (before ++ e :: after)%list, []. 
        split; [reflexivity|]. split; [|intros ? []].
        intros y Hy. apply in_app_or in Hy as [Hy|[<-|Hy]].
        -- specialize (Hb y Hy). lia.
        -- exact Hlt.
        -- specialize (Ha y Hy). lia.
      * rewrite Ee. split; [exact Hcoh|].
        exists before, (after ++ [x])%list.
        split; [now rewrite <- app_assoc|]. split; [exact Hb|].
        intros y Hy. apply in_app_or in Hy as [Hy|[<-|[]]]; auto.
    + subst els. split; [reflexivity|].
      exists [], []. split; [reflexivity|]. split; intros ? [].
Qed.

End Reduce.

(** ** Nearest neighbour: Down and Up *)

Lemma elementsAfter_origin (all : list Element) (ay : Z) :
  elementsAfter all (Fin 0) (Fin ay)
  = List.filter (fun c => (0 <=? offsetLeft c) && (ay <=? offsetTop c)) all.
Proof.
  unfold elementsAfter. apply filter_ext. intros c.
  now rewrite !geb_Fin.
Qed.

Lemma elementsBefore_unbounded (all : list Element) (ay : Z) :
  elementsBefore all PosInf (Fin ay) = at_or_above ay all.
Proof.
  unfold elementsBefore, at_or_above. apply filter_ext. intros c.
  now rewrite leb_Fin_PosInf, leb_Fin.
Qed.

(** Where no candidate lies left of the origin, the left bound of
    [elementsAfter(0, top)] excludes nothing. *)
Lemma elementsAfter_origin_nonnegative (all : list Element) (ay : Z) :
  (forall c, In c all -> 0 <= offsetLeft c) ->
  elementsAfter all (Fin 0) (Fin ay) = at_or_below ay all.
Proof.
  intros Hpos. rewrite elementsAfter_origin. unfold at_or_below.
  induction all as [|c all IH]; [reflexivity|]. simpl.
  assert (Hc : 0 <= offsetLeft c) by (apply Hpos; now left).
  apply Z.leb_le in Hc. rewrite Hc. simpl.
  rewrite IH; [reflexivity|]. intros x Hx. apply Hpos. now right.
Qed.

Lemma getNextElement_down (n : Navigator) (sel : Element)
  (all : list Element) :
  selected n = Elem sel -> elements n = Some all ->
  getNextElement n DIRECTION.down
  = Ok (element
          (reduce_nearest
             (distance_down (Fin (offsetLeft sel))
                (Fin (offsetTop sel + offsetHeight sel)))
             (elementsAfter all (Fin 0)
                (Fin (offsetTop sel + offsetHeight sel))))).
Proof.
  intros Hsel Hall. unfold getNextElement, the_elements.
  rewrite Hsel, Hall. reflexivity.
Qed.

Lemma getNextElement_up (n : Navigator) (sel : Element)
  (all : list Element) :
  selected n = Elem sel -> elements n = Some all ->
  getNextElement n DIRECTION.up
  = Ok (element
          (reduce_nearest
             (distance_up (Fin (offsetLeft sel)) (Fin (offsetTop sel - 1)))
             (elementsBefore all PosInf (Fin (offsetTop sel - 1))))).
Proof.
  intros Hsel Hall. unfold getNextElement, the_elements.
  rewrite Hsel, Hall. reflexivity.
Qed.

(** C1, as stated, fails. With the first item selected, the anchor of Down
    is (0, 50); the item at (-5, 50) lies at or below it at distance 5, yet
    [getNextElement] returns the item at (100, 50), at distance 100: it is not
    the nearest of the candidates whose top offset is at least the anchor's,
    because [elementsAfter(0, top)] also drops what lies left of the
    origin. *)
Lemma getNextElement_down_ignores_left_of_origin :
  exists r,
    getNextElement (scanned overhang (Elem (item 0 0 0))) DIRECTION.down
    = Ok r
    /\ ~ first_nearest (manhattan 0 50) (at_or_below 50 overhang) r.
Proof.
  exists (Some (item 2 100 50)). split; [reflexivity|].
  intros (before & after & Heq & Hb & _).
  destruct before as [|b before].
  - discriminate Heq.
  - injection Heq as <- _.
    specialize (Hb (item 1 (-5) 50) (or_introl eq_refl)).
    vm_compute in Hb. discriminate Hb.
Qed.

(** C1, amended. With an element selected and the elements scanned, Down
    keeps the candidates whose top offset is at least the anchor's top and
    whose left offset is at least 0, the anchor being the bottom-left corner
    of the selection; Up keeps those whose top offset is at most the anchor's
    top, the anchor being [(selected.left, selected.top - 1)]. Of the
    candidates kept, the call returns the one at the least Manhattan distance
    from the anchor, the earliest in sequence order among equals, and nothing
    when none is kept. *)
Theorem getNextElement_vertical_nearest (n : Navigator) (sel : Element)
  (all : list Element) :
  selected n = Elem sel ->
  elements n = Some all ->
  (exists r,
      getNextElement n DIRECTION.down = Ok r
      /\ first_nearest
           (manhattan (offsetLeft sel) (offsetTop sel + offsetHeight sel))
           (List.filter
              (fun c => (0 <=? offsetLeft c)
                        && (offsetTop sel + offsetHeight sel <=? offsetTop c))
              all)
           r)
  /\ (exists r,
         getNextElement n DIRECTION.up = Ok r
         /\ first_nearest
              (manhattan (offsetLeft sel) (offsetTop sel - 1))
              (at_or_above (offsetTop sel - 1) all)
              r).
Proof.
  intros Hsel Hall. split.
  - eexists. split; [apply (getNextElement_down n sel all Hsel Hall)|].
    rewrite <- elementsAfter_origin.
    apply reduce_nearest_first. intros el. apply distance_down_Fin.
  - eexists. split; [apply (getNextElement_up n sel all Hsel Hall)|].
    rewrite <- elementsBefore_unbounded.
    apply reduce_nearest_first. intros el. apply distance_up_Fin.
Qed.

(** The theorem at the grid of the specification, first item selected. *)
Lemma getNextElement_vertical_nearest_grid :
  (exists r,
      getNextElement (scanned grid (Elem (item 0 0 0))) DIRECTION.down = Ok r
      /\ first_nearest (manhattan 0 (0 + 50))
           (List.filter
              (fun c => (0 <=? offsetLeft c) && (0 + 50 <=? offsetTop c))
              grid)
           r)
  /\ (exists r,
         getNextElement (scanned grid (Elem (item 0 0 0))) DIRECTION.up = Ok r
         /\ first_nearest (manhattan 0 (0 - 1)) (at_or_above (0 - 1) grid) r).
Proof.
  apply (getNextElement_vertical_nearest
           (scanned grid (Elem (item 0 0 0))) (item 0 0 0) grid);
    reflexivity.
Defined.

(** Where no candidate lies left of the origin, Down is the nearest of the
    candidates at or below the anchor. *)
Corollary getNextElement_down_nonnegative (n : Navigator) (sel : Element)
  (all : list Element) :
  selected n = Elem sel ->
  elements n = Some all ->
  (forall c, In c all -> 0 <= offsetLeft c) ->
  exists r,
    getNextElement n DIRECTION.down = Ok r
    /\ first_nearest
         (manhattan (offsetLeft sel) (offsetTop sel + offsetHeight sel))
         (at_or_below (offsetTop sel + offsetHeight sel) all) r.
Proof.
  intros Hsel Hall Hpos.
  eexists. split; [apply (getNextElement_down n sel all Hsel Hall)|].
  rewrite <- (elementsAfter_origin_nonnegative all _ Hpos).
  apply reduce_nearest_first. intros el. apply distance_down_Fin.
Qed.

(** The Down example of the specification: from (0,0) to (0,50). *)
Example getNextElement_down_grid :
  getNextElement (scanned grid (Elem (item 0 0 0))) DIRECTION.down
  = Ok (Some (item 2 0 50)).
Proof. reflexivity. Qed.

(** A later candidate at the same distance does not displace an earlier
    one. *)
Example getNextElement_down_tie :
  getNextElement
    (scanned [item 0 0 0; item 1 10 50; item 2 0 60] (Elem (item 0 0 0)))
    DIRECTION.down
  = Ok (Some (item 1 10 50)).
Proof. reflexivity. Qed.

(** ** An unknown direction *)

(** C7. A direction that is none of ["left"], ["up"], ["right"], ["down"],
    handed to [getNextElement], raises the error
    "getNextElement: invalid direction value", whatever the state of the
    navigator; no result is returned. *)
Theorem getNextElement_invalid_direction (n : Navigator)
  (direction : string) :
  direction <> DIRECTION.left ->
  direction <> DIRECTION.up ->
  direction <> DIRECTION.right ->
  direction <> DIRECTION.down ->
  getNextElement n direction
  = Throw (Error "getNextElement: invalid direction value").
Proof.
  intros Hl Hu Hr Hd. unfold getNextElement.
  apply String.eqb_neq in Hl, Hu, Hr, Hd.
  now rewrite Hr, Hl, Hd, Hu.
Qed.

Lemma getNextElement_invalid_direction_sideways :
  getNextElement (scanned grid (Elem (item 0 0 0))) "sideways"
  = Throw (Error "getNextElement: invalid direction value").
Proof.
  apply (getNextElement_invalid_direction
           (scanned grid (Elem (item 0 0 0))) "sideways");
    discriminate.
Defined.

(** ** What a recorded call leaves alone *)

Lemma emit_frame (e : Effect) (w : World) :
  nav (emit e w) = nav w
  /\ host (emit e w) = host w
  /\ listeners (emit e w) = listeners w
  /\ classes (emit e w) = classes w
  /\ activeElement (emit e w) = activeElement w
  /\ scroll_container (emit e w) = scroll_container w
  /\ scroll_state (emit e w) = scroll_state w.
Proof. repeat split. Qed.

(** ** Right and Left *)

Lemma following_found (sel : Element) (before after : list Element) :
  (forall x, In x before -> el_id x <> el_id sel) ->
  following sel (before ++ sel :: after) = head after.
Proof.
  intros Hfresh. induction before as [|x before IH]; simpl.
  - unfold same_element. now rewrite Nat.eqb_refl.
  - assert (Hx : same_element x sel = false).
    { apply Nat.eqb_neq, Hfresh. now left. }
    rewrite Hx. apply IH. intros y Hy. apply Hfresh. now right.
Qed.

Lemma preceding_found (sel : Element) (before after : list Element) :
  (forall x, In x before -> el_id x <> el_id sel) ->
  preceding sel (before ++ sel :: after) = last before.
Proof.
  intros Hfresh. induction before as [|x before IH].
  - simpl. unfold same_element. now rewrite Nat.eqb_refl.
  - assert (Hx : same_element x sel = false).
    { apply Nat.eqb_neq, Hfresh. now left. }
    assert (IH' : preceding sel (before ++ sel :: after) = last before).
    { apply IH. intros y Hy. apply Hfresh. now right. }
    clear IH. cbn [app preceding]. rewrite Hx.
    destruct before as [|y before].
    + simpl. unfold same_element. now rewrite Nat.eqb_refl.
    + assert (Hy : same_element y sel = false).
      { apply Nat.eqb_neq, Hfresh. right. now left. }
      cbn [app]. rewrite Hy. cbn [app] in IH'. rewrite IH'. reflexivity.
Qed.

(** A key bound to a direction, pressed when [getNextElement] finds nothing,
    leaves everything but the trace as it was. *)
Lemma handleKeydown_no_target (w : World) (k : Z) (direction : string) :
  keys (nav w) !! k = Some direction ->
  direction <> "" ->
  truthy (selected (nav w)) = true ->
  getNextElement (nav w) direction = Ok None ->
  handleKeydown k w = Ok (emit PreventDefault (log_info "handleKeydown" w)).
Proof.
  intros Hk Hne Hsel Hnext. unfold handleKeydown. simpl.
  rewrite Hk. simpl. apply String.eqb_neq in Hne. rewrite Hne.
  rewrite Hsel, Hnext. reflexivity.
Qed.

(** C2. With the selection at some place of the candidate sequence, Right
    returns the candidate that follows it and Left the one that precedes it.
    Neither wraps around: at the last place Right, and at the first place
    Left, return nothing, and a key bound to that direction then leaves the
    selection, the markers and the scroll positions as they were. *)
Theorem getNextElement_horizontal (w : World) (sel : Element)
  (before after : list Element) :
  selected (nav w) = Elem sel ->
  elements (nav w) = Some (before ++ sel :: after)%list ->
  (forall x, In x before -> el_id x <> el_id sel) ->
  getNextElement (nav w) DIRECTION.right = Ok (head after)
  /\ getNextElement (nav w) DIRECTION.left = Ok (last before)
  /\ (forall k,
         keys (nav w) !! k = Some DIRECTION.right -> after = [] ->
         exists w',
           handleKeydown k w = Ok w'
           /\ nav w' = nav w
           /\ classes w' = classes w
           /\ activeElement w' = activeElement w
           /\ scroll_state w' = scroll_state w)
  /\ (forall k,
         keys (nav w) !! k = Some DIRECTION.left -> before = [] ->
         exists w',
           handleKeydown k w = Ok w'
           /\ nav w' = nav w
           /\ classes w' = classes w
           /\ activeElement w' = activeElement w
           /\ scroll_state w' = scroll_state w).
Proof.
  intros Hsel Hall Hfresh.
  assert (Hright : getNextElement (nav w) DIRECTION.right = Ok (head after)).
  { unfold getNextElement, u_getNextElement. simpl.
    rewrite Hsel, Hall. simpl. now rewrite following_found. }
  assert (Hleft : getNextElement (nav w) DIRECTION.left = Ok (last before)).
  { unfold getNextElement, u_getPreviousElement. simpl.
    rewrite Hsel, Hall. simpl. now rewrite preceding_found. }
  split; [exact Hright|]. split; [exact Hleft|]. split.
  - intros k Hk ->. eexists. split.
    + apply (handleKeydown_no_target w k DIRECTION.right Hk);
        [discriminate | now rewrite Hsel | exact Hright].
    + repeat split.
  - intros k Hk ->. eexists. split.
    + apply (handleKeydown_no_target w k DIRECTION.left Hk);
        [discriminate | now rewrite Hsel | exact Hleft].
    + repeat split.
Qed.

Lemma getNextElement_horizontal_grid :
  getNextElement (nav grid_last_selected) DIRECTION.right = Ok None
  /\ getNextElement (nav grid_last_selected) DIRECTION.left
     = Ok (Some (item 2 0 50))
  /\ exists w',
       handleKeydown 39 grid_last_selected = Ok w'
       /\ nav w' = nav grid_last_selected.
Proof.
  assert (Hfresh : forall x,
             In x [item 0 0 0; item 1 100 0; item 2 0 50] ->
             el_id x <> el_id (item 3 100 50)).
  { intros x [<-|[<-|[<-|[]]]]; simpl; lia. }
  destruct (getNextElement_horizontal grid_last_selected (item 3 100 50)
              [item 0 0 0; item 1 100 0; item 2 0 50] []
              eq_refl eq_refl Hfresh)
    as (Hright & Hleft & Hstay & _).
  split; [exact Hright|]. split; [exact Hleft|].
  destruct (Hstay 39 eq_refl eq_refl) as (w' & Hw' & Hnav & _).
  exists w'. split; assumption.
Defined.

(** ** enable *)

Lemma addEventListener_new (h : nat) (w : World) :
  ~ In h (listeners w) ->
  listeners (addEventListener h w) = (listeners w ++ [h])%list.
Proof.
  intros Hnew. unfold addEventListener. simpl.
  rewrite bool_decide_eq_false_2; [reflexivity|].
  now rewrite list_elem_of_In.
Qed.

Lemma enable_listeners (w : World) :
  closures_allocated w ->
  listeners (enable w) = (listeners w ++ [next_closure w])%list
  /\ next_closure (enable w) = S (next_closure w)
  /\ keydownHandler (nav (enable w)) = Some (next_closure w)
  /\ enabled (nav (enable w)) = Some true
  /\ closures_allocated (enable w).
Proof.
  intros Halloc.
  assert (Hl : listeners (enable w)
               = (listeners w ++ [next_closure w])%list).
  { unfold enable. cbn -[addEventListener].
    rewrite addEventListener_new; [reflexivity|].
    simpl. intros Hin. apply Halloc in Hin. lia. }
  split; [exact Hl|]. split; [reflexivity|].
  split; [reflexivity|]. split; [reflexivity|].
  unfold closures_allocated. rewrite Hl.
  change (next_closure (enable w)) with (S (next_closure w)).
  intros h Hin. apply in_app_or in Hin as [Hin|[<-|[]]].
  - apply Halloc in Hin. lia.
  - lia.
Qed.

(** C3, as stated, fails. On a fresh navigator the first [enable()] registers
    one listener and sets [enabled]; a second [enable()] with no [disable()]
    in between registers another one: two listeners, not one. *)
Lemma enable_twice_registers_two :
  let w1 := enable (fresh_world grid (sample_container 0 0)) in
  enabled (nav w1) = Some true
  /\ length (listeners w1) = 1%nat
  /\ length (listeners (enable w1)) = 2%nat
  /\ length (listeners (enable w1)) <> 1%nat.
Proof. repeat split. simpl. lia. Qed.

(** C3, amended. [enable()] is not idempotent: every call builds a new
    handler closure and registers it. From a state whose listeners are
    closures allocated earlier, one call adds exactly one listener, and a
    second call with no [disable()] in between adds another one, so that two
    more listeners are registered than before the first call. *)
Theorem enable_registers_each_time (w : World) :
  closures_allocated w ->
  listeners (enable w) = (listeners w ++ [next_closure w])%list
  /\ listeners (enable (enable w))
     = (listeners w ++ [next_closure w; S (next_closure w)])%list
  /\ length (listeners (enable (enable w)))
     = (length (listeners w) + 2)%nat.
Proof.
  intros Halloc.
  destruct (enable_listeners w Halloc) as (Hl1 & Hn1 & _ & _ & Halloc1).
  destruct (enable_listeners (enable w) Halloc1) as (Hl2 & _).
  rewrite Hl1, Hn1, <- app_assoc in Hl2. cbn [app] in Hl2.
  split; [exact Hl1|]. split; [exact Hl2|].
  rewrite Hl2, length_app. reflexivity.
Qed.

Lemma enable_registers_each_time_fresh :
  listeners (enable (enable (fresh_world grid (sample_container 0 0))))
  = [0%nat; 1%nat].
Proof.
  assert (Halloc : closures_allocated
                     (fresh_world grid (sample_container 0 0))).
  { intros h Hin. simpl in Hin. destruct Hin. }
  destruct (enable_registers_each_time
              (fresh_world grid (sample_container 0 0)) Halloc)
    as (_ & Hl2 & _).
  exact Hl2.
Defined.

(** ** scrollTo *)

Lemma scrollTo_in_view (el : Element) (direction : string) (w : World) :
  inScrollContainerViewport el w = true ->
  inViewport el w = true ->
  scrollTo el direction w = emit (ScrollTo (el_id el) direction) w.
Proof.
  intros Hc Hv. unfold scrollTo.
  change (inScrollContainerViewport el (emit (ScrollTo (el_id el) direction) w))
    with (inScrollContainerViewport el w).
  change (inViewport el (emit (ScrollTo (el_id el) direction) w))
    with (inViewport el w).
  now rewrite Hc, Hv.
Qed.

(** [scrollTo] reads the host's geometry and the scroll positions only. *)
Lemma scrollTo_scroll_state (el : Element) (direction : string)
  (w w' : World) :
  host w = host w' ->
  scroll_container w = scroll_container w' ->
  body_scrollLeft w = body_scrollLeft w' ->
  body_scrollTop w = body_scrollTop w' ->
  scroll_state (scrollTo el direction w)
  = scroll_state (scrollTo el direction w').
Proof.
  intros Hh Hc Hl Ht. unfold scrollTo, inScrollContainerViewport, inViewport.
  cbn [emit host scroll_container]. rewrite Hh, Hc.
  destruct_ifs;
    unfold scroll_state; simpl; rewrite ?Hh, ?Hc, ?Hl, ?Ht; reflexivity.
Qed.

Lemma scrollTo_frame (el : Element) (direction : string) (w : World) :
  nav (scrollTo el direction w) = nav w
  /\ classes (scrollTo el direction w) = classes w
  /\ activeElement (scrollTo el direction w) = activeElement w
  /\ trace (scrollTo el direction w)
     = (trace w ++ [ScrollTo (el_id el) direction])%list.
Proof.
  unfold scrollTo. destruct_ifs; repeat split.
Qed.

Lemma inScrollContainerViewport_below (el : Element) (w : World) :
  offsetTop el + offsetHeight el - scrollTop (scroll_container w)
  > box_offsetTop (scroll_container w) + box_offsetHeight (scroll_container w) ->
  inScrollContainerViewport el w = false.
Proof.
  intros Hbelow. unfold inScrollContainerViewport.
  assert (Hgt : (offsetTop el + offsetHeight el
                 - scrollTop (scroll_container w)
                 >? box_offsetTop (scroll_container w)
                    + box_offsetHeight (scroll_container w)) = true).
  { rewrite Z.gtb_ltb. apply Z.ltb_lt. lia. }
  rewrite Hgt. destruct_ifs; reflexivity.
Qed.

(** C5, as stated, fails. The item at (0, 200), 50 high, lies below a
    container of height 100 scrolled to 50. [scrollTo] with Down brings the
    scroll-top offset from 50 to 150: an increase of 100, while
    [elementTop - containerTop - (containerHeight - elementHeight)] is 150. *)
Lemma scrollTo_down_is_not_an_increment :
  let c := scroll_container list_scrolled_halfway in
  let delta :=
    offsetTop far_item - box_offsetTop c
    - (box_offsetHeight c - offsetHeight far_item) in
  let w' := scrollTo far_item DIRECTION.down list_scrolled_halfway in
  offsetTop far_item + offsetHeight far_item - scrollTop c
  > box_offsetTop c + box_offsetHeight c
  /\ scrollTop (scroll_container w') = 150
  /\ scrollTop (scroll_container w') - scrollTop c <> delta.
Proof. simpl. repeat split; lia. Qed.

(** C5, amended. For an element whose bottom edge lies beyond the visible
    bottom of the scroll container, [scrollTo] with Down sets the container's
    scroll-top offset to
    [elementTop - containerTop - (containerHeight - elementHeight)] (an
    increase by that amount less the previous scroll-top offset) and leaves
    the other scroll positions alone; and whenever both visibility checks
    pass, [scrollTo] changes no scroll position, whatever the direction. *)
Theorem scrollTo_down_sets_scrollTop (el : Element) (w : World) :
  (offsetTop el + offsetHeight el - scrollTop (scroll_container w)
   > box_offsetTop (scroll_container w) + box_offsetHeight (scroll_container w)
   ->
   let w' := scrollTo el DIRECTION.down w in
   scrollTop (scroll_container w')
   = offsetTop el - box_offsetTop (scroll_container w)
     - (box_offsetHeight (scroll_container w) - offsetHeight el)
   /\ scrollTop (scroll_container w') > scrollTop (scroll_container w)
   /\ scrollLeft (scroll_container w') = scrollLeft (scroll_container w)
   /\ body_scrollLeft w' = body_scrollLeft w
   /\ body_scrollTop w' = body_scrollTop w)
  /\ (forall direction,
         inScrollContainerViewport el w = true ->
         inViewport el w = true ->
         scroll_state (scrollTo el direction w) = scroll_state w).
Proof.
  split.
  - intros Hbelow.
    assert (Hout : inScrollContainerViewport el w = false)
      by now apply inScrollContainerViewport_below.
    unfold scrollTo.
    change (inScrollContainerViewport el
              (emit (ScrollTo (el_id el) DIRECTION.down) w))
      with (inScrollContainerViewport el w).
    rewrite Hout. simpl. repeat split; lia.
  - intros direction Hc Hv. now rewrite scrollTo_in_view.
Qed.

Lemma scrollTo_down_sets_scrollTop_far_item :
  scrollTop
    (scroll_container (scrollTo far_item DIRECTION.down list_scrolled_halfway))
  = 150
  /\ scroll_state
       (scrollTo (item 4 0 0) DIRECTION.down
          (fresh_world [item 4 0 0; far_item] (sample_container 0 0)))
     = (0, 0, 0, 0).
Proof.
  split.
  - assert (Hbelow :
             offsetTop far_item + offsetHeight far_item
             - scrollTop (scroll_container list_scrolled_halfway)
             > box_offsetTop (scroll_container list_scrolled_halfway)
               + box_offsetHeight (scroll_container list_scrolled_halfway))
      by (simpl; lia).
    destruct (scrollTo_down_sets_scrollTop far_item list_scrolled_halfway)
      as (Hset & _).
    destruct (Hset Hbelow) as (Htop & _). exact Htop.
  - destruct (scrollTo_down_sets_scrollTop (item 4 0 0)
                (fresh_world [item 4 0 0; far_item] (sample_container 0 0)))
      as (_ & Hstay).
    exact (Hstay DIRECTION.down eq_refl eq_refl).
Defined.

(** ** select and unselect *)

Lemma unselect_frame (w : World) :
  host (unselect w) = host w
  /\ scroll_container (unselect w) = scroll_container w
  /\ body_scrollLeft (unselect w) = body_scrollLeft w
  /\ body_scrollTop (unselect w) = body_scrollTop w
  /\ activeElement (unselect w) = activeElement w
  /\ options (nav (unselect w)) = options (nav w)
  /\ elements (nav (unselect w)) = elements (nav w)
  /\ keys (nav (unselect w)) = keys (nav w).
Proof.
  unfold unselect. destruct (selected (nav w)); repeat split.
Qed.

Lemma unselect_trace (w : World) :
  exists t,
    trace (unselect w) = (trace w ++ t)%list
    /\ marker_applications t = 0%nat
    /\ scroll_invocations t = 0%nat.
Proof.
  unfold unselect. destruct (selected (nav w)); simpl.
  - exists []. now rewrite app_nil_r.
  - eexists [_]. repeat split.
  - eexists [_]. repeat split.
Qed.

(** The marker put on a newly selected element. *)
Lemma select_new (el : Element) (direction : option string) (w : World) :
  is_selected el (selected (nav w)) = false ->
  select (Some el) direction w
  = let w1 := unselect w in
    let w2 := match given direction with
              | Some d => scrollTo el d w1
              | None => w1
              end in
    let w3 := if matches_input el
              then focus el w2
              else u_addClass (opt_selected (options (nav w2))) el w2 in
    update_nav (with_selected (Elem el)) w3.
Proof. intros Hnew. unfold select. now rewrite Hnew. Qed.

Lemma select_selected (el : option Element) (direction : option string)
  (w : World) :
  selected (nav (select el direction w))
  = match el with
    | Some e =>
        if is_selected e (selected (nav w)) then selected (nav w) else Elem e
    | None => selected (nav w)
    end.
Proof.
  destruct el as [e|]; [|reflexivity]. unfold select.
  destruct (is_selected e (selected (nav w))); [reflexivity|].
  destruct (matches_input e); reflexivity.
Qed.

Lemma select_scroll_state (el : Element) (direction : option string)
  (w : World) :
  is_selected el (selected (nav w)) = false ->
  scroll_state (select (Some el) direction w)
  = match given direction with
    | Some d => scroll_state (scrollTo el d w)
    | None => scroll_state w
    end.
Proof.
  intros Hnew. rewrite (select_new el direction w Hnew). cbv zeta.
  destruct (unselect_frame w) as (Hh & Hc & Hl & Ht & _).
  assert (Hmark : forall w2,
             scroll_state
               (update_nav (with_selected (Elem el))
                  (if matches_input el
                   then focus el w2
                   else u_addClass (opt_selected (options (nav w2))) el w2))
             = scroll_state w2).
  { intros w2. destruct (matches_input el); reflexivity. }
  rewrite Hmark. destruct (given direction) as [d|].
  - now apply scrollTo_scroll_state.
  - unfold scroll_state. now rewrite Hc, Hl, Ht.
Qed.

Lemma select_trace_new (el : Element) (direction : option string)
  (w : World) :
  is_selected el (selected (nav w)) = false ->
  exists t,
    trace (select (Some el) direction w) = (trace w ++ t)%list
    /\ marker_applications t = 1%nat
    /\ scroll_invocations t
       = match given direction with Some _ => 1%nat | None => 0%nat end.
Proof.
  intros Hnew. rewrite (select_new el direction w Hnew). cbv zeta.
  destruct (unselect_trace w) as (tu & Htu & Hmu & Hsu).
  set (w1 := unselect w) in *.
  assert (Hscroll : exists ts,
             trace (match given direction with
                    | Some d => scrollTo el d w1
                    | None => w1
                    end) = (trace w1 ++ ts)%list
             /\ marker_applications ts = 0%nat
             /\ scroll_invocations ts
                = match given direction with
                  | Some _ => 1%nat
                  | None => 0%nat
                  end).
  { destruct (given direction) as [d|].
    - destruct (scrollTo_frame el d w1) as (_ & _ & _ & Htr).
      eexists [_]. split; [exact Htr|]. split; reflexivity.
    - exists []. now rewrite app_nil_r. }
  destruct Hscroll as (ts & Hts & Hms & Hss).
  set (w2 := match given direction with
             | Some d => scrollTo el d w1
             | None => w1
             end) in *.
  assert (Hmark : exists m,
             trace (update_nav (with_selected (Elem el))
                      (if matches_input el
                       then focus el w2
                       else u_addClass (opt_selected (options (nav w2)))
                              el w2))
             = (trace w2 ++ [m])%list
             /\ is_marker_application m = true
             /\ is_scroll_invocation m = false).
  { destruct (matches_input el); eexists; repeat split. }
  destruct Hmark as (m & Hm & Hmm & Hsm).
  exists (tu ++ ts ++ [m])%list. split.
  - rewrite Hm, Hts, Htu. now rewrite <- !app_assoc.
  - unfold marker_applications, scroll_invocations in *.
    rewrite !List.filter_app, !length_app. simpl.
    rewrite Hmm, Hsm, Hmu, Hms, Hsu, Hss. simpl.
    split; [reflexivity|]. destruct (given direction); reflexivity.
Qed.

(** ** The first selection *)

(** C4, as stated, fails. The grid is enabled, nothing is selected and the
    container is scrolled down by 100. The up arrow (38) selects the first
    item and scrolls the container back to 0: the initial selection does
    scroll. *)
Lemma handleKeydown_first_selection_scrolls :
  selected (nav grid_scrolled_past) = Null
  /\ enabled (nav grid_scrolled_past) = Some true
  /\ exists w',
       handleKeydown 38 grid_scrolled_past = Ok w'
       /\ selected (nav w') = Elem (item 0 0 0)
       /\ scrollTop (scroll_container grid_scrolled_past) = 100
       /\ scrollTop (scroll_container w') = 0
       /\ scroll_state w' <> scroll_state grid_scrolled_past.
Proof.
  split; [reflexivity|]. split; [reflexivity|].
  eexists. split; [reflexivity|].
  split; [reflexivity|]. split; [reflexivity|]. split; [reflexivity|].
  discriminate.
Qed.

(** C4, amended. While [this.selected] is [null], as the constructor leaves
    it, and the scanned sequence is not empty, a key bound to a direction
    selects the first candidate in sequence order and hands it to [scrollTo]
    with that direction: the scroll positions afterwards are those [scrollTo]
    computes, and they are unchanged when the candidate already passes both
    visibility checks. *)
Theorem handleKeydown_first_selection (w : World) (k : Z)
  (direction : string) (first : Element) (rest : list Element) :
  selected (nav w) = Null ->
  elements (nav w) = Some (first :: rest) ->
  keys (nav w) !! k = Some direction ->
  direction <> "" ->
  exists w',
    handleKeydown k w = Ok w'
    /\ selected (nav w') = Elem first
    /\ scroll_state w' = scroll_state (scrollTo first direction w)
    /\ (inScrollContainerViewport first w = true ->
        inViewport first w = true ->
        scroll_state w' = scroll_state w).
Proof.
  intros Hsel Hall Hk Hne.
  assert (Hgiven : given (Some direction) = Some direction).
  { simpl. apply String.eqb_neq in Hne. now rewrite Hne. }
  set (w1 := emit PreventDefault (log_info "handleKeydown" w)).
  assert (Hrun : handleKeydown k w
                 = Ok (select (Some first) (Some direction) w1)).
  { unfold handleKeydown. cbn [log_info emit nav]. rewrite Hk, Hgiven.
    cbn [nav]. rewrite Hsel. cbn [truthy]. unfold the_elements.
    rewrite Hall. reflexivity. }
  assert (Hnew : is_selected first (selected (nav w1)) = false).
  { cbn [w1 log_info emit nav]. now rewrite Hsel. }
  assert (Hstate : scroll_state (select (Some first) (Some direction) w1)
                   = scroll_state (scrollTo first direction w)).
  { rewrite (select_scroll_state first (Some direction) w1 Hnew), Hgiven.
    now apply scrollTo_scroll_state. }
  exists (select (Some first) (Some direction) w1).
  split; [exact Hrun|]. split; [|split].
  - rewrite select_selected, Hnew. reflexivity.
  - exact Hstate.
  - intros Hc Hv. rewrite Hstate. now rewrite scrollTo_in_view.
Qed.

Lemma handleKeydown_first_selection_grid :
  exists w',
    handleKeydown 38 grid_scrolled_past = Ok w'
    /\ selected (nav w') = Elem (item 0 0 0)
    /\ scroll_state w'
       = scroll_state (scrollTo (item 0 0 0) DIRECTION.up grid_scrolled_past).
Proof.
  assert (Hne : DIRECTION.up <> "") by discriminate.
  destruct (handleKeydown_first_selection grid_scrolled_past 38 DIRECTION.up
              (item 0 0 0) [item 1 100 0; item 2 0 50; item 3 100 50]
              eq_refl eq_refl eq_refl Hne)
    as (w' & Hrun & Hsel & Hscroll & _).
  exists w'. repeat split; assumption.
Defined.

(** After [unselect()] a read of [this.selected] finds the method of the
    prototype, which is truthy: the down arrow then asks [getNextElement]
    instead of taking the first candidate, and nothing gets selected. *)
Example handleKeydown_after_unselect :
  let w := unselect grid_last_selected in
  selected (nav w) = Method
  /\ exists w',
       handleKeydown 40 w = Ok w' /\ selected (nav w') = Method.
Proof.
  split; [reflexivity|]. eexists. split; vm_compute; reflexivity.
Qed.

(** ** Selecting without a direction *)

(** C9. [select(el)] without a direction never calls [scrollTo]: for every
    element, wherever it lies, the container and page scroll positions are
    what they were, and no invocation of [scrollTo] is recorded. *)
Theorem select_without_direction_never_scrolls (el : option Element)
  (w : World) :
  scroll_state (select el None w) = scroll_state w
  /\ exists t,
       trace (select el None w) = (trace w ++ t)%list
       /\ scroll_invocations t = 0%nat.
Proof.
  destruct el as [el|].
  - destruct (is_selected el (selected (nav w))) eqn:Hsel.
    + unfold select. rewrite Hsel. split; [reflexivity|].
      exists []. now rewrite app_nil_r.
    + split.
      * now rewrite (select_scroll_state el None w Hsel).
      * destruct (select_trace_new el None w Hsel) as (t & Ht & _ & Hs).
        exists t. split; assumption.
  - split; [reflexivity|]. exists []. now rewrite app_nil_r.
Qed.

(** ** Selecting nothing, or the selection again *)

(** C6. [select(el)] with [el] null, or with [el] the selected element,
    returns at once: the state, trace included, is the one before the call,
    so nothing is raised and no marker or scroll fires. Of two consecutive
    [select(el)] calls with the same element the second therefore changes
    nothing, and together they apply the marker exactly once (the first call,
    when [el] was not selected yet) and invoke [scrollTo] at most once. *)
Theorem select_again_is_noop (w : World) (el : Element)
  (d1 d2 : option string) :
  select None d1 w = w
  /\ (is_selected el (selected (nav w)) = true -> select (Some el) d1 w = w)
  /\ select (Some el) d2 (select (Some el) d1 w) = select (Some el) d1 w
  /\ (is_selected el (selected (nav w)) = false ->
      exists t,
        trace (select (Some el) d2 (select (Some el) d1 w))
        = (trace w ++ t)%list
        /\ marker_applications t = 1%nat
        /\ (scroll_invocations t <= 1)%nat).
Proof.
  assert (Hagain : select (Some el) d2 (select (Some el) d1 w)
                   = select (Some el) d1 w).
  { assert (Hnow : is_selected el (selected (nav (select (Some el) d1 w)))
                   = true).
    { rewrite select_selected.
      destruct (is_selected el (selected (nav w))) eqn:Hsel; [exact Hsel|].
      simpl. apply Nat.eqb_refl. }
    unfold select at 1. now rewrite Hnow. }
  split; [reflexivity|]. split; [|split].
  - intros Hsel. unfold select. now rewrite Hsel.
  - exact Hagain.
  - intros Hnew. rewrite Hagain.
    destruct (select_trace_new el d1 w Hnew) as (t & Ht & Hm & Hs).
    exists t. split; [exact Ht|]. split; [exact Hm|].
    rewrite Hs. destruct (given d1); lia.
Qed.

Lemma select_again_is_noop_grid :
  let w := enable (fresh_world grid (sample_container 0 0)) in
  let w1 := select (Some (item 2 0 50)) (Some DIRECTION.down) w in
  select (Some (item 2 0 50)) (Some DIRECTION.down) w1 = w1
  /\ select (Some (item 3 100 50)) None grid_last_selected
     = grid_last_selected
  /\ exists t,
       trace (select (Some (item 2 0 50)) (Some DIRECTION.down) w1)
       = (trace w ++ t)%list
       /\ marker_applications t = 1%nat
       /\ (scroll_invocations t <= 1)%nat.
Proof.
  intros w w1.
  destruct (select_again_is_noop w (item 2 0 50)
              (Some DIRECTION.down) (Some DIRECTION.down))
    as (_ & _ & Hagain & Hcount).
  destruct (select_again_is_noop grid_last_selected (item 3 100 50) None None)
    as (_ & Hsame & _).
  split; [exact Hagain|]. split; [exact (Hsame eq_refl)|].
  exact (Hcount eq_refl).
Defined.

(** ** Focus outlives the selection *)

Lemma disable_unselect (w : World) :
  classes (disable w) = classes (unselect w)
  /\ activeElement (disable w) = activeElement (unselect w)
  /\ selected (nav (disable w)) = selected (nav (unselect w)).
Proof.
  destruct w as [[o s h ks en els] ? ? ? ? ? ? ? ? ? ?].
  unfold disable, unselect. destruct h, s; repeat split.
Qed.

(** C10. With an element selected, [unselect()], and [disable()] through it,
    do one thing to the document: they take the highlight class off that
    element. The focused element is what it was. So when an input-like
    element is selected, which gives it the focus and not the class, it still
    has the focus after [unselect()] and after [disable()], although
    [this.selected] no longer holds an element. *)
Theorem unselect_keeps_focus (w : World) (e : Element) :
  selected (nav w) = Elem e ->
  (classes (unselect w) = classes w ∖ {[ el_id e ]}
   /\ activeElement (unselect w) = activeElement w
   /\ selected (nav (unselect w)) = Method
   /\ trace (unselect w)
      = (trace w
           ++ [RemoveClass (opt_selected (options (nav w))) (Some (el_id e))])%list)
  /\ (classes (disable w) = classes w ∖ {[ el_id e ]}
      /\ activeElement (disable w) = activeElement w
      /\ selected (nav (disable w)) = Method)
  /\ (forall w0 direction,
         w = select (Some e) direction w0 ->
         is_selected e (selected (nav w0)) = false ->
         matches_input e = true ->
         activeElement w = Some (el_id e)
         /\ activeElement (unselect w) = Some (el_id e)
         /\ activeElement (disable w) = Some (el_id e)).
Proof.
  intros Hsel.
  assert (Hun : classes (unselect w) = classes w ∖ {[ el_id e ]}
                /\ activeElement (unselect w) = activeElement w
                /\ selected (nav (unselect w)) = Method
                /\ trace (unselect w)
                   = (trace w
                        ++ [RemoveClass (opt_selected (options (nav w)))
                              (Some (el_id e))])%list).
  { unfold unselect. rewrite Hsel. repeat split. }
  destruct Hun as (Hc & Hf & Hs & Ht).
  destruct (disable_unselect w) as (Hdc & Hdf & Hds).
  split; [now repeat split|]. split.
  - rewrite Hdc, Hdf, Hds. now repeat split.
  - intros w0 direction -> Hnew Hinput.
    assert (Hfocus : activeElement (select (Some e) direction w0)
                     = Some (el_id e)).
    { rewrite (select_new e direction w0 Hnew). cbv zeta.
      rewrite Hinput. reflexivity. }
    rewrite Hdf, Hf, Hfocus. now repeat split.
Qed.

Lemma unselect_keeps_focus_form :
  let w := select (Some (input_item 0 0 0)) None form_world in
  activeElement w = Some 0%nat
  /\ activeElement (unselect w) = Some 0%nat
  /\ activeElement (disable w) = Some 0%nat
  /\ selected (nav (disable w)) = Method.
Proof.
  intros w.
  destruct (unselect_keeps_focus w (input_item 0 0 0) eq_refl)
    as (_ & (_ & _ & Hgone) & Hfocus).
  destruct (Hfocus form_world None eq_refl eq_refl eq_refl)
    as (H0 & H1 & H2).
  repeat split; assumption.
Defined.

(** ** One highlighted element *)












(** * Further properties *)

(** ** Key bindings *)

Lemma init_keys_lookup (o : Options) (k : Z) :
  init_keys o !! k
  = if decide (opt_down o = k) then Some DIRECTION.down
    else if decide (opt_right o = k) then Some DIRECTION.right
    else if decide (opt_up o = k) then Some DIRECTION.up
    else if decide (opt_left o = k) then Some DIRECTION.left
    else None.
Proof.
  unfold init_keys. rewrite !lookup_insert, lookup_empty. reflexivity.
Qed.

(** The hotkeys map is written in the order left, up, right, down, and a
    later write to the same key replaces an earlier one: the key of Down
    always means Down, and each other key means its direction as long as no
    direction written after it uses the same key. Two directions given the
    same key leave the earlier one without a key. *)
Theorem init_keys_last_write_wins (o : Options) :
  init_keys o !! opt_down o = Some DIRECTION.down
  /\ (opt_right o <> opt_down o ->
      init_keys o !! opt_right o = Some DIRECTION.right)
  /\ (opt_up o <> opt_down o -> opt_up o <> opt_right o ->
      init_keys o !! opt_up o = Some DIRECTION.up)
  /\ (opt_left o <> opt_down o -> opt_left o <> opt_right o ->
      opt_left o <> opt_up o ->
      init_keys o !! opt_left o = Some DIRECTION.left)
  /\ (opt_left o = opt_down o ->
      forall k, init_keys o !! k <> Some DIRECTION.left).
Proof.
  repeat split.
  - rewrite init_keys_lookup. now rewrite decide_True.
  - intros Hd. rewrite init_keys_lookup.
    rewrite decide_False by congruence. now rewrite decide_True.
  - intros Hd Hr. rewrite init_keys_lookup.
    rewrite !decide_False by congruence. now rewrite decide_True.
  - intros Hd Hr Hu. rewrite init_keys_lookup.
    rewrite !decide_False by congruence. now rewrite decide_True.
  - intros Hsame k. rewrite init_keys_lookup.
    repeat case_decide; try discriminate. congruence.
Qed.

Lemma init_keys_last_write_wins_defaults :
  init_keys DEFAULTS !! 39 = Some DIRECTION.right
  /\ init_keys DEFAULTS !! 38 = Some DIRECTION.up
  /\ init_keys DEFAULTS !! 37 = Some DIRECTION.left
  /\ forall k,
       init_keys (mkOptions "selected" "li" 40 38 39 40) !! k
       <> Some DIRECTION.left.
Proof.
  destruct (init_keys_last_write_wins DEFAULTS) as (_ & Hr & Hu & Hl & _).
  destruct (init_keys_last_write_wins (mkOptions "selected" "li" 40 38 39 40))
    as (_ & _ & _ & _ & Hclash).
  split; [apply Hr; simpl; lia|].
  split; [apply Hu; simpl; lia|].
  split; [apply Hl; simpl; lia|].
  apply Hclash. reflexivity.
Defined.

Lemma init_keys_is_direction (o : Options) (k : Z) (d : string) :
  init_keys o !! k = Some d -> is_direction d.
Proof.
  rewrite init_keys_lookup. unfold is_direction.
  repeat case_decide; intros [= <-]; auto.
Qed.

(** ** Keys that are not bound *)

(** A key that is none of the four configured ones is ignored: the handler
    logs the call and returns; it does not call [preventDefault], and the
    navigator and the document are as before. *)
Theorem handleKeydown_unbound_key (w : World) (k : Z) :
  keys (nav w) = init_keys (options (nav w)) ->
  k <> opt_left (options (nav w)) ->
  k <> opt_up (options (nav w)) ->
  k <> opt_right (options (nav w)) ->
  k <> opt_down (options (nav w)) ->
  handleKeydown k w = Ok (log_info "handleKeydown" w)
  /\ trace (log_info "handleKeydown" w)
     = (trace w ++ [Log "handleKeydown"])%list.
Proof.
  intros Hkeys Hl Hu Hr Hd. split; [|reflexivity].
  unfold handleKeydown. cbn [log_info emit nav].
  rewrite Hkeys, init_keys_lookup.
  rewrite !decide_False by congruence. reflexivity.
Qed.

Lemma handleKeydown_unbound_key_enter :
  handleKeydown 13 grid_last_selected
  = Ok (log_info "handleKeydown" grid_last_selected).
Proof.
  destruct (handleKeydown_unbound_key grid_last_selected 13) as (Hrun & _);
    [reflexivity | simpl; lia | simpl; lia | simpl; lia | simpl; lia |].
  exact Hrun.
Defined.

(** ** Errors of the key handler and of [getNextElement] *)

Lemma getNextElement_ok (n : Navigator) (direction : string)
  (all : list Element) :
  selected n <> Null ->
  elements n = Some all ->
  is_direction direction ->
  exists r, getNextElement n direction = Ok r.
Proof.
  intros Hsel Hall Hdir. unfold getNextElement, the_elements.
  rewrite Hall.
  destruct Hdir as [-> | [-> | [-> | ->]]]; simpl;
    destruct (selected n); try congruence; eexists; reflexivity.
Qed.

(** Once the elements are scanned, a key press never raises: with the key
    bindings of [init] and [this.selected] holding [null] or an element,
    [handleKeydown] returns normally for every key. *)
Theorem handleKeydown_never_throws (w : World) (k : Z)
  (all : list Element) :
  keys (nav w) = init_keys (options (nav w)) ->
  elements (nav w) = Some all ->
  selected (nav w) <> Method ->
  exists w', handleKeydown k w = Ok w'.
Proof.
  intros Hkeys Hall Hsel. unfold handleKeydown. cbn [log_info emit nav].
  destruct (keys (nav w) !! k) as [d|] eqn:Hk; simpl;
    [|eexists; reflexivity].
  destruct (String.eqb d ""); [eexists; reflexivity|].
  rewrite Hkeys in Hk. apply init_keys_is_direction in Hk.
  destruct (selected (nav w)) as [|sel|] eqn:Hs; [| |congruence].
  - simpl. unfold the_elements. rewrite Hall. simpl. eexists; reflexivity.
  - simpl.
    destruct (getNextElement_ok (nav w) d all) as (r & Hr);
      [congruence | exact Hall | exact Hk |].
    rewrite Hr. simpl. eexists; reflexivity.
Qed.

Lemma handleKeydown_never_throws_grid :
  exists w', handleKeydown 40 grid_last_selected = Ok w'.
Proof.
  apply (handleKeydown_never_throws grid_last_selected 40 grid);
    [reflexivity | reflexivity | discriminate].
Defined.

(** No offset is at least, or at most, [NaN]. *)
Lemma elementsAfter_NaN (all : list Element) (left : number) :
  elementsAfter all left NaN = [].
Proof.
  unfold elementsAfter. induction all as [|x all IH]; [reflexivity|].
  cbn [List.filter]. change (geb (Fin (offsetTop x)) NaN) with false.
  rewrite andb_false_r. exact IH.
Qed.

Lemma elementsBefore_NaN (all : list Element) (left : number) :
  elementsBefore all left NaN = [].
Proof.
  unfold elementsBefore. induction all as [|x all IH]; [reflexivity|].
  cbn [List.filter]. change (leb (Fin (offsetTop x)) NaN) with false.
  rewrite andb_false_r. exact IH.
Qed.

(** Down and Up read the offsets of [this.selected]: while it is [null]
    they raise a [TypeError]; while it is the method left behind by
    [unselect], the offsets are [undefined], every comparison with the
    resulting [NaN] fails, and nothing is returned. *)
Theorem getNextElement_without_selection (n : Navigator) :
  (selected n = Null ->
   getNextElement n DIRECTION.down = Throw TypeError
   /\ getNextElement n DIRECTION.up = Throw TypeError)
  /\ (selected n = Method ->
      forall all, elements n = Some all ->
      getNextElement n DIRECTION.down = Ok None
      /\ getNextElement n DIRECTION.up = Ok None).
Proof.
  split.
  - intros Hsel. unfold getNextElement. rewrite Hsel. now split.
  - intros Hsel all Hall. unfold getNextElement, the_elements.
    rewrite Hsel, Hall. simpl.
    now rewrite elementsAfter_NaN, elementsBefore_NaN.
Qed.

Lemma getNextElement_without_selection_grid :
  getNextElement (scanned grid Null) DIRECTION.down = Throw TypeError
  /\ getNextElement (scanned grid Method) DIRECTION.up = Ok None.
Proof.
  destruct (getNextElement_without_selection (scanned grid Null))
    as (Hnull & _).
  destruct (getNextElement_without_selection (scanned grid Method))
    as (_ & Hmethod).
  destruct (Hnull eq_refl) as (Hdown & _).
  destruct (Hmethod eq_refl grid eq_refl) as (_ & Hup).
  split; assumption.
Defined.

(** ** Down and Up move strictly down and up *)

Lemma first_nearest_In (d : Element -> Z) (cands : list Element)
  (e : Element) :
  first_nearest d cands (Some e) -> In e cands.
Proof.
  intros (before & after & -> & _). apply in_or_app. right. now left.
Qed.

(** What Down returns is a scanned element whose top is at or below the
    bottom edge of the selection and whose left offset is not negative; what
    Up returns is a scanned element whose top is strictly above the top of
    the selection, so Up never returns the selection itself. *)
Theorem getNextElement_vertical_direction (n : Navigator) (sel e : Element)
  (all : list Element) :
  selected n = Elem sel ->
  elements n = Some all ->
  (getNextElement n DIRECTION.down = Ok (Some e) ->
   In e all
   /\ offsetTop sel + offsetHeight sel <= offsetTop e
   /\ 0 <= offsetLeft e)
  /\ (getNextElement n DIRECTION.up = Ok (Some e) ->
      In e all /\ offsetTop e < offsetTop sel).
Proof.
  intros Hsel Hall. split.
  - rewrite (getNextElement_down n sel all Hsel Hall). intros [= Hr].
    pose proof (reduce_nearest_first
                  (distance_down (Fin (offsetLeft sel))
                     (Fin (offsetTop sel + offsetHeight sel)))
                  (manhattan (offsetLeft sel)
                     (offsetTop sel + offsetHeight sel))
                  (fun el => distance_down_Fin _ _ el)
                  (elementsAfter all (Fin 0)
                     (Fin (offsetTop sel + offsetHeight sel))))
      as (_ & Hfirst).
    rewrite Hr in Hfirst. apply first_nearest_In in Hfirst.
    rewrite elementsAfter_origin in Hfirst.
    apply filter_In in Hfirst as (Hin & Hkeep).
    apply andb_prop in Hkeep as (Hleft & Htop).
    apply Z.leb_le in Hleft, Htop. now repeat split.
  - rewrite (getNextElement_up n sel all Hsel Hall). intros [= Hr].
    pose proof (reduce_nearest_first
                  (distance_up (Fin (offsetLeft sel))
                     (Fin (offsetTop sel - 1)))
                  (manhattan (offsetLeft sel) (offsetTop sel - 1))
                  (fun el => distance_up_Fin _ _ el)
                  (elementsBefore all PosInf (Fin (offsetTop sel - 1))))
      as (_ & Hfirst).
    rewrite Hr in Hfirst. apply first_nearest_In in Hfirst.
    rewrite elementsBefore_unbounded in Hfirst.
    apply filter_In in Hfirst as (Hin & Htop).
    apply Z.leb_le in Htop. split; [exact Hin | lia].
Qed.

Lemma getNextElement_vertical_direction_grid :
  In (item 2 0 50) grid
  /\ offsetTop (item 0 0 0) + offsetHeight (item 0 0 0)
     <= offsetTop (item 2 0 50)
  /\ 0 <= offsetLeft (item 2 0 50).
Proof.
  destruct (getNextElement_vertical_direction
              (scanned grid (Elem (item 0 0 0))) (item 0 0 0) (item 2 0 50)
              grid eq_refl eq_refl)
    as (Hdown & _).
  exact (Hdown eq_refl).
Defined.

(** ** What scrollTo achieves *)

Lemma inScrollContainerViewport_true (el : Element) (w : World) :
  inScrollContainerViewport el w = true
  <-> within_horizontally el (scroll_container w)
      /\ within_vertically el (scroll_container w).
Proof.
  unfold inScrollContainerViewport, within_horizontally, within_vertically.
  rewrite !Z.gtb_ltb.
  repeat match goal with
         | |- context [?a <? ?b] => destruct (Z.ltb_spec a b)
         end; split; try discriminate; try (intros; lia);
    intros _; repeat split; lia.
Qed.

Lemma scrollTo_container (el : Element) (direction : string) (w : World) :
  inScrollContainerViewport el w = false ->
  scrollTo el direction w
  = let w1 := emit (ScrollTo (el_id el) direction) w in
    let container := scroll_container w in
    if String.eqb direction DIRECTION.left then
      update_scroll_container
        (with_scrollLeft (offsetLeft el - box_offsetLeft container)) w1
    else if String.eqb direction DIRECTION.up then
      update_scroll_container
        (with_scrollTop (offsetTop el - box_offsetTop container)) w1
    else if String.eqb direction DIRECTION.right then
      update_scroll_container
        (with_scrollLeft
           (offsetLeft el - box_offsetLeft container
            - (box_offsetWidth container - offsetWidth el))) w1
    else if String.eqb direction DIRECTION.down then
      update_scroll_container
        (with_scrollTop
           (offsetTop el - box_offsetTop container
            - (box_offsetHeight container - offsetHeight el))) w1
    else w1.
Proof.
  intros Hout. unfold scrollTo.
  change (inScrollContainerViewport el
            (emit (ScrollTo (el_id el) direction) w))
    with (inScrollContainerViewport el w).
  rewrite Hout. reflexivity.
Qed.

(** An element that the container does not show, that lies within its left
    and right edges and is not taller than the container, is in the
    container's view after [scrollTo] with Up or with Down: Up puts its top
    edge on the container's top edge, Down its bottom edge on the
    container's bottom edge. *)
Theorem scrollTo_vertical_into_view (el : Element) (direction : string)
  (w : World) :
  direction = DIRECTION.up \/ direction = DIRECTION.down ->
  inScrollContainerViewport el w = false ->
  within_horizontally el (scroll_container w) ->
  offsetHeight el <= box_offsetHeight (scroll_container w) ->
  let w' := scrollTo el direction w in
  inScrollContainerViewport el w' = true
  /\ (direction = DIRECTION.up ->
      offsetTop el - scrollTop (scroll_container w')
      = box_offsetTop (scroll_container w'))
  /\ (direction = DIRECTION.down ->
      offsetTop el + offsetHeight el - scrollTop (scroll_container w')
      = box_offsetTop (scroll_container w')
        + box_offsetHeight (scroll_container w')).
Proof.
  intros Hdir Hout Hh Hfits w'. subst w'.
  rewrite (scrollTo_container el direction w Hout).
  unfold within_horizontally in Hh.
  destruct Hdir as [-> | ->]; cbv zeta; simpl;
    (split; [apply inScrollContainerViewport_true;
             unfold within_horizontally, within_vertically; simpl; lia|]);
    split; intros; try discriminate; lia.
Qed.

Lemma scrollTo_vertical_into_view_far_item :
  inScrollContainerViewport far_item
    (scrollTo far_item DIRECTION.down list_scrolled_halfway) = true.
Proof.
  assert (Hh : within_horizontally far_item
                 (scroll_container list_scrolled_halfway)).
  { unfold within_horizontally. simpl. lia. }
  assert (Hfits : offsetHeight far_item
                  <= box_offsetHeight (scroll_container list_scrolled_halfway)).
  { simpl. lia. }
  destruct (scrollTo_vertical_into_view far_item DIRECTION.down
              list_scrolled_halfway (or_intror eq_refl) eq_refl Hh Hfits)
    as (Hin & _).
  exact Hin.
Defined.

(** The same for Left and Right: an element the container does not show,
    that lies within its top and bottom edges and is not wider than the
    container, is in view after [scrollTo] with Left (left edges aligned) or
    Right (right edges aligned). *)
Theorem scrollTo_horizontal_into_view (el : Element) (direction : string)
  (w : World) :
  direction = DIRECTION.left \/ direction = DIRECTION.right ->
  inScrollContainerViewport el w = false ->
  within_vertically el (scroll_container w) ->
  offsetWidth el <= box_offsetWidth (scroll_container w) ->
  let w' := scrollTo el direction w in
  inScrollContainerViewport el w' = true
  /\ (direction = DIRECTION.left ->
      offsetLeft el - scrollLeft (scroll_container w')
      = box_offsetLeft (scroll_container w'))
  /\ (direction = DIRECTION.right ->
      offsetLeft el + offsetWidth el - scrollLeft (scroll_container w')
      = box_offsetLeft (scroll_container w')
        + box_offsetWidth (scroll_container w')).
Proof.
  intros Hdir Hout Hv Hfits w'. subst w'.
  rewrite (scrollTo_container el direction w Hout).
  unfold within_vertically in Hv.
  destruct Hdir as [-> | ->]; cbv zeta; simpl;
    (split; [apply inScrollContainerViewport_true;
             unfold within_horizontally, within_vertically; simpl; lia|]);
    split; intros; try discriminate; lia.
Qed.

Lemma scrollTo_horizontal_into_view_wide :
  inScrollContainerViewport (item 7 300 0)
    (scrollTo (item 7 300 0) DIRECTION.right
       (fresh_world [item 7 300 0] (sample_container 0 0))) = true.
Proof.
  assert (Hv : within_vertically (item 7 300 0) (sample_container 0 0)).
  { unfold within_vertically. simpl. lia. }
  assert (Hfits : offsetWidth (item 7 300 0)
                  <= box_offsetWidth (sample_container 0 0)).
  { simpl. lia. }
  destruct (scrollTo_horizontal_into_view (item 7 300 0) DIRECTION.right
              (fresh_world [item 7 300 0] (sample_container 0 0))
              (or_intror eq_refl) eq_refl Hv Hfits)
    as (Hin & _).
  exact Hin.
Defined.

(** The direction of travel alone decides the axis: an element that is out
    of view sideways only stays out of view after [scrollTo] with Down. *)
Example scrollTo_down_ignores_sideways :
  let w := fresh_world [item 7 300 0] (sample_container 0 0) in
  inScrollContainerViewport (item 7 300 0) w = false
  /\ inScrollContainerViewport (item 7 300 0)
       (scrollTo (item 7 300 0) DIRECTION.down w) = false.
Proof. split; reflexivity. Qed.

(** [scrollTo] scrolls at one level at most. While the container does not
    show the element, the page is not scrolled, whether or not the window
    shows the element; while the container shows it, the container is not
    scrolled. Up and Down never write a horizontal position, Left and Right
    never a vertical one. *)
Theorem scrollTo_one_level (el : Element) (direction : string) (w : World) :
  let w' := scrollTo el direction w in
  (inScrollContainerViewport el w = false ->
   body_scrollLeft w' = body_scrollLeft w
   /\ body_scrollTop w' = body_scrollTop w)
  /\ (inScrollContainerViewport el w = true ->
      scroll_container w' = scroll_container w)
  /\ (direction = DIRECTION.up \/ direction = DIRECTION.down ->
      scrollLeft (scroll_container w') = scrollLeft (scroll_container w)
      /\ body_scrollLeft w' = body_scrollLeft w)
  /\ (direction = DIRECTION.left \/ direction = DIRECTION.right ->
      scrollTop (scroll_container w') = scrollTop (scroll_container w)
      /\ body_scrollTop w' = body_scrollTop w).
Proof.
  intros w'. subst w'. unfold scrollTo.
  change (inScrollContainerViewport el
            (emit (ScrollTo (el_id el) direction) w))
    with (inScrollContainerViewport el w).
  change (inViewport el (emit (ScrollTo (el_id el) direction) w))
    with (inViewport el w).
  split; [|split; [|split]].
  - intros Hout. rewrite Hout. simpl. destruct_ifs; split; reflexivity.
  - intros Hin. rewrite Hin. simpl. destruct_ifs; reflexivity.
  - intros [-> | ->]; simpl; destruct_ifs; split; reflexivity.
  - intros [-> | ->]; simpl; destruct_ifs; split; reflexivity.
Qed.

Lemma scrollTo_one_level_far_item :
  body_scrollTop (scrollTo far_item DIRECTION.down list_scrolled_halfway)
  = body_scrollTop list_scrolled_halfway
  /\ scrollLeft
       (scroll_container
          (scrollTo far_item DIRECTION.down list_scrolled_halfway))
     = scrollLeft (scroll_container list_scrolled_halfway).
Proof.
  destruct (scrollTo_one_level far_item DIRECTION.down list_scrolled_halfway)
    as (Hpage & _ & Hvertical & _).
  destruct (Hpage eq_refl) as (_ & Htop).
  destruct (Hvertical (or_intror eq_refl)) as (Hleft & _).
  split; assumption.
Defined.

(** A direction that is none of the four is no error for [scrollTo] and for
    [select]: both [switch]es fall through, no scroll position changes, and
    [select] still makes the element the selection. *)
Theorem scrollTo_unknown_direction (el : Element) (direction : string)
  (w : World) :
  ~ is_direction direction ->
  scroll_state (scrollTo el direction w) = scroll_state w
  /\ scroll_state (select (Some el) (Some direction) w) = scroll_state w
  /\ (is_selected el (selected (nav w)) = false ->
      selected (nav (select (Some el) (Some direction) w)) = Elem el).
Proof.
  intros Hdir. unfold is_direction in Hdir.
  assert (Hl : String.eqb direction DIRECTION.left = false)
    by (apply String.eqb_neq; tauto).
  assert (Hu : String.eqb direction DIRECTION.up = false)
    by (apply String.eqb_neq; tauto).
  assert (Hr : String.eqb direction DIRECTION.right = false)
    by (apply String.eqb_neq; tauto).
  assert (Hd : String.eqb direction DIRECTION.down = false)
    by (apply String.eqb_neq; tauto).
  assert (Hscroll : forall w0,
             scroll_state (scrollTo el direction w0) = scroll_state w0).
  { intros w0. unfold scrollTo. rewrite Hl, Hu, Hr, Hd.
    destruct_ifs; reflexivity. }
  split; [apply Hscroll|]. split.
  - destruct (is_selected el (selected (nav w))) eqn:Hsel.
    + unfold select. now rewrite Hsel.
    + rewrite (select_scroll_state el (Some direction) w Hsel).
      simpl. destruct (String.eqb direction "");
        [reflexivity | apply Hscroll].
  - intros Hsel. rewrite select_selected, Hsel. reflexivity.
Qed.

Lemma scrollTo_unknown_direction_sideways :
  scroll_state (scrollTo far_item "sideways" list_scrolled_halfway)
  = scroll_state list_scrolled_halfway.
Proof.
  assert (Hdir : ~ is_direction "sideways").
  { intros [H | [H | [H | H]]]; discriminate H. }
  destruct (scrollTo_unknown_direction far_item "sideways"
              list_scrolled_halfway Hdir)
    as (Hscroll & _).
  exact Hscroll.
Defined.

(** ** What selection and key handling leave alone *)

Lemma same_wiring_refl (w : World) : same_wiring w w.
Proof. repeat split. Qed.

Lemma same_wiring_trans (w1 w2 w3 : World) :
  same_wiring w1 w2 -> same_wiring w2 w3 -> same_wiring w1 w3.
Proof.
  unfold same_wiring. intros H12 H23.
  destruct H12 as (? & ? & ? & ? & ? & ? & ? & ? & ?).
  destruct H23 as (? & ? & ? & ? & ? & ? & ? & ? & ?).
  repeat split; congruence.
Qed.

Lemma unselect_wiring (w : World) : same_wiring w (unselect w).
Proof. unfold unselect. destruct (selected (nav w)); repeat split. Qed.

Lemma scrollTo_wiring (el : Element) (direction : string) (w : World) :
  same_wiring w (scrollTo el direction w).
Proof. unfold scrollTo. destruct_ifs; repeat split. Qed.

Lemma select_wiring (el : option Element) (direction : option string)
  (w : World) :
  same_wiring w (select el direction w).
Proof.
  destruct el as [el|]; [|apply same_wiring_refl].
  destruct (is_selected el (selected (nav w))) eqn:Hsel.
  - unfold select. rewrite Hsel. apply same_wiring_refl.
  - rewrite (select_new el direction w Hsel). cbv zeta.
    apply (same_wiring_trans w (unselect w)); [apply unselect_wiring|].
    set (w1 := unselect w).
    set (w2 := match given direction with
               | Some d => scrollTo el d w1
               | None => w1
               end).
    apply (same_wiring_trans w1 w2).
    + subst w2. destruct (given direction);
        [apply scrollTo_wiring | apply same_wiring_refl].
    + destruct (matches_input el); repeat split.
Qed.

Lemma handleKeydown_result (k : Z) (w w' : World) :
  handleKeydown k w = Ok w' ->
  w' = log_info "handleKeydown" w
  \/ exists next direction,
       w' = select next (Some direction)
              (emit PreventDefault (log_info "handleKeydown" w)).
Proof.
  unfold handleKeydown.
  destruct (given (keys (nav (log_info "handleKeydown" w)) !! k)) as [d|].
  - set (w1 := emit PreventDefault (log_info "handleKeydown" w)).
    destruct (if truthy (selected (nav w1))
              then getNextElement (nav w1) d
              else bind (the_elements (nav w1)) (fun all => Ok (head all)))
      as [next|err]; simpl; [|discriminate].
    intros [= <-]. right. now exists next, d.
  - intros [= <-]. now left.
Qed.

(** Selecting, unselecting and handling a key never rescan: the sequence of
    the last scan, the key bindings, the options, the registered listeners
    and the enabled flag are what they were, whatever gets selected. *)
Theorem selection_keeps_wiring (w : World) :
  (forall el direction, same_wiring w (select el direction w))
  /\ same_wiring w (unselect w)
  /\ (forall k w', handleKeydown k w = Ok w' -> same_wiring w w').
Proof.
  split; [intros; apply select_wiring|].
  split; [apply unselect_wiring|].
  intros k w' Hrun.
  destruct (handleKeydown_result k w w' Hrun) as [-> | (next & d & ->)].
  - repeat split.
  - apply (same_wiring_trans w
             (emit PreventDefault (log_info "handleKeydown" w)));
      [repeat split | apply select_wiring].
Qed.

Lemma selection_keeps_wiring_grid :
  elements (nav (select (Some (item 0 0 0)) (Some DIRECTION.up)
                   grid_last_selected))
  = Some grid
  /\ match handleKeydown 37 grid_last_selected with
     | Ok w' => elements (nav w') = Some grid
     | Throw _ => False
     end.
Proof.
  destruct (selection_keeps_wiring grid_last_selected)
    as (Hselect & _ & Hkey).
  split.
  - destruct (Hselect (Some (item 0 0 0)) (Some DIRECTION.up))
      as (_ & _ & _ & _ & _ & _ & _ & _ & Hels).
    exact Hels.
  - destruct (handleKeydown 37 grid_last_selected) as [w'|err] eqn:Hrun.
    + destruct (Hkey 37 w' Hrun) as (_ & _ & _ & _ & _ & _ & _ & _ & Hels).
      exact Hels.
    + vm_compute in Hrun. discriminate Hrun.
Defined.

(** ** Key presses that find a target, or no candidate at all *)

(** With an element selected, a key bound to a direction for which
    [getNextElement] finds another element selects that element and hands it
    to [scrollTo] with the direction of the key. *)
Theorem handleKeydown_moves_selection (w : World) (k : Z)
  (direction : string) (sel target : Element) :
  keys (nav w) !! k = Some direction ->
  direction <> "" ->
  selected (nav w) = Elem sel ->
  getNextElement (nav w) direction = Ok (Some target) ->
  el_id target <> el_id sel ->
  exists w',
    handleKeydown k w = Ok w'
    /\ selected (nav w') = Elem target
    /\ scroll_state w' = scroll_state (scrollTo target direction w)
    /\ el_id sel ∉ classes w'.
Proof.
  intros Hk Hne Hsel Hnext Hother.
  assert (Hgiven : given (Some direction) = Some direction).
  { simpl. apply String.eqb_neq in Hne. now rewrite Hne. }
  set (w1 := emit PreventDefault (log_info "handleKeydown" w)).
  assert (Hrun : handleKeydown k w
                 = Ok (select (Some target) (Some direction) w1)).
  { unfold handleKeydown. cbn [log_info emit nav]. rewrite Hk, Hgiven.
    cbn [nav]. rewrite Hsel. cbn [truthy]. rewrite Hnext. reflexivity. }
  assert (Hnew : is_selected target (selected (nav w1)) = false).
  { cbn [w1 log_info emit nav]. rewrite Hsel. simpl.
    now apply Nat.eqb_neq. }
  exists (select (Some target) (Some direction) w1).
  split; [exact Hrun|]. split; [|split].
  - rewrite select_selected, Hnew. reflexivity.
  - rewrite (select_scroll_state target (Some direction) w1 Hnew), Hgiven.
    now apply scrollTo_scroll_state.
  - rewrite (select_new target (Some direction) w1 Hnew). cbv zeta.
    rewrite Hgiven.
    assert (Hgone : el_id sel ∉ classes (unselect w1)).
    { unfold unselect. cbn [w1 log_info emit nav]. rewrite Hsel. simpl.
      intros [_ Hnot]%elem_of_difference. apply Hnot.
      now apply elem_of_singleton. }
    destruct (scrollTo_frame target direction (unselect w1))
      as (_ & Hc & _).
    destruct (matches_input target); simpl; rewrite Hc; [exact Hgone|].
    intros [Hsame%elem_of_singleton | Hin]%elem_of_union;
      [now apply Hother | exact (Hgone Hin)].
Qed.

Lemma handleKeydown_moves_selection_grid :
  exists w',
    handleKeydown 38 grid_last_selected = Ok w'
    /\ selected (nav w') = Elem (item 1 100 0).
Proof.
  assert (Hne : DIRECTION.up <> "") by discriminate.
  assert (Hother : el_id (item 1 100 0) <> el_id (item 3 100 50))
    by (simpl; lia).
  destruct (handleKeydown_moves_selection grid_last_selected 38 DIRECTION.up
              (item 3 100 50) (item 1 100 0)
              eq_refl Hne eq_refl eq_refl Hother)
    as (w' & Hrun & Hsel & _).
  exists w'. split; assumption.
Defined.

(** With an empty scan a bound key does nothing but stop the default action
    of the event: no error, no selection, no marker, no scroll. This holds
    for every direction while nothing was selected yet, and for Up and Down
    also with an element selected. *)
Theorem handleKeydown_no_candidates (w : World) (k : Z)
  (direction : string) :
  elements (nav w) = Some [] ->
  keys (nav w) !! k = Some direction ->
  is_direction direction ->
  selected (nav w) = Null
  \/ ((exists sel, selected (nav w) = Elem sel)
      /\ (direction = DIRECTION.up \/ direction = DIRECTION.down)) ->
  handleKeydown k w = Ok (emit PreventDefault (log_info "handleKeydown" w)).
Proof.
  intros Hall Hk Hdir Hcase.
  assert (Hgiven : given (Some direction) = Some direction).
  { destruct Hdir as [-> | [-> | [-> | ->]]]; reflexivity. }
  unfold handleKeydown. cbn [log_info emit nav]. rewrite Hk, Hgiven.
  cbn [nav]. destruct Hcase as [Hs | ((sel & Hs) & Hvertical)]; rewrite Hs.
  - cbn [truthy]. unfold the_elements. rewrite Hall. reflexivity.
  - cbn [truthy].
    assert (Hnext : getNextElement (nav w) direction = Ok None).
    { unfold getNextElement, the_elements. rewrite Hs, Hall.
      destruct Hvertical as [-> | ->]; reflexivity. }
    rewrite Hnext. reflexivity.
Qed.

Lemma handleKeydown_no_candidates_empty :
  handleKeydown 40 (enable (fresh_world [] (sample_container 0 0)))
  = Ok (emit PreventDefault
          (log_info "handleKeydown"
             (enable (fresh_world [] (sample_container 0 0))))).
Proof.
  apply (handleKeydown_no_candidates
           (enable (fresh_world [] (sample_container 0 0))) 40
           DIRECTION.down);
    [reflexivity | reflexivity | | left; reflexivity].
  right. right. right. reflexivity.
Defined.

(** ** Scrolling the page *)

(** An element the container shows but the window does not is scrolled at
    page level: Up puts its absolute top, the sum of the offsets along its
    [offsetParent] chain, on the body's top offset; Down puts its absolute
    bottom at the body's top offset plus the height of the document element.
    The container is not scrolled. *)
Theorem scrollTo_page_level (el : Element) (w : World) :
  inScrollContainerViewport el w = true ->
  inViewport el w = false ->
  (let w' := scrollTo el DIRECTION.up w in
   absoluteOffsetTop el - body_scrollTop w' = body_offsetTop (host w)
   /\ scroll_container w' = scroll_container w)
  /\ (let w' := scrollTo el DIRECTION.down w in
      absoluteOffsetTop el + offsetHeight el - body_scrollTop w'
      = body_offsetTop (host w) + clientHeight (host w)
      /\ scroll_container w' = scroll_container w)
  /\ (let w' := scrollTo el DIRECTION.left w in
      absoluteOffsetLeft el - body_scrollLeft w' = body_offsetLeft (host w)
      /\ scroll_container w' = scroll_container w)
  /\ (let w' := scrollTo el DIRECTION.right w in
      absoluteOffsetLeft el + offsetWidth el - body_scrollLeft w'
      = body_offsetLeft (host w) + clientWidth (host w)
      /\ scroll_container w' = scroll_container w).
Proof.
  intros Hin Hout.
  assert (Hrun : forall d,
             scrollTo el d w
             = let w1 := emit (ScrollTo (el_id el) d) w in
               if String.eqb d DIRECTION.left then
                 with_body_scrollLeft
                   (absoluteOffsetLeft el - body_offsetLeft (host w)) w1
               else if String.eqb d DIRECTION.up then
                 with_body_scrollTop
                   (absoluteOffsetTop el - body_offsetTop (host w)) w1
               else if String.eqb d DIRECTION.right then
                 with_body_scrollLeft
                   (absoluteOffsetLeft el - body_offsetLeft (host w)
                    - (clientWidth (host w) - offsetWidth el)) w1
               else if String.eqb d DIRECTION.down then
                 with_body_scrollTop
                   (absoluteOffsetTop el - body_offsetTop (host w)
                    - (clientHeight (host w) - offsetHeight el)) w1
               else w1).
  { intros d. unfold scrollTo.
    change (inScrollContainerViewport el (emit (ScrollTo (el_id el) d) w))
      with (inScrollContainerViewport el w).
    change (inViewport el (emit (ScrollTo (el_id el) d) w))
      with (inViewport el w).
    rewrite Hin, Hout. reflexivity. }
  rewrite !Hrun. simpl. repeat split; lia.
Qed.

(** The absolute offset of a nested element adds the offsets of its
    ancestors. *)
Example absoluteOffsetTop_nested : absoluteOffsetTop deep_item = 1230.
Proof. reflexivity. Qed.

Lemma scrollTo_page_level_nested :
  body_scrollTop (scrollTo deep_item DIRECTION.down page_world)
  = 1230 + 50 - (8 + 600).
Proof.
  destruct (scrollTo_page_level deep_item page_world eq_refl eq_refl)
    as (_ & (Hdown & _) & _).
  simpl in Hdown. simpl. lia.
Defined.

(** ** The life cycle of the listener *)

Lemma removeEventListener_absent (h : nat) (l : list nat) :
  ~ In h l -> List.filter (fun x => negb (Nat.eqb x h)) l = l.
Proof.
  intros Habsent. induction l as [|x l IH]; [reflexivity|]. simpl.
  destruct (Nat.eqb_spec x h) as [->|Hne]; simpl.
  - exfalso. apply Habsent. now left.
  - rewrite IH; [reflexivity|]. intros Hin. apply Habsent. now right.
Qed.

Lemma removeEventListener_twice (h : nat) (l : list nat) :
  List.filter (fun x => negb (Nat.eqb x h))
    (List.filter (fun x => negb (Nat.eqb x h)) l)
  = List.filter (fun x => negb (Nat.eqb x h)) l.
Proof.
  apply removeEventListener_absent. intros Hin.
  apply filter_In in Hin as (_ & Hne). now rewrite Nat.eqb_refl in Hne.
Qed.

Lemma disable_wiring (w : World) :
  listeners (disable w)
  = match keydownHandler (nav w) with
    | Some h => List.filter (fun x => negb (Nat.eqb x h)) (listeners w)
    | None => listeners w
    end
  /\ next_closure (disable w) = next_closure w
  /\ keydownHandler (nav (disable w)) = keydownHandler (nav w)
  /\ enabled (nav (disable w)) = Some false
  /\ elements (nav (disable w)) = elements (nav w)
  /\ scroll_state (disable w) = scroll_state w.
Proof.
  destruct w as [[o s h ks en els] ? ? ? ? ? ? ? ? ? ?].
  unfold disable, unselect. destruct h, s; repeat split.
Qed.

(** From a state whose listeners are closures allocated earlier, [enable()]
    followed by [disable()] leaves the listeners as they were before, with
    the navigator marked disabled. *)
Theorem disable_undoes_enable (w : World) :
  closures_allocated w ->
  listeners (disable (enable w)) = listeners w
  /\ enabled (nav (disable (enable w))) = Some false.
Proof.
  intros Halloc.
  destruct (enable_listeners w Halloc) as (Hl & _ & Hh & _).
  destruct (disable_wiring (enable w)) as (Hd & _ & _ & He & _).
  split; [|exact He].
  rewrite Hd, Hh, Hl, List.filter_app. simpl. rewrite Nat.eqb_refl. simpl.
  rewrite app_nil_r. apply removeEventListener_absent.
  intros Hin. apply Halloc in Hin. lia.
Qed.

Lemma disable_undoes_enable_fresh :
  listeners (disable (enable (fresh_world grid (sample_container 0 0)))) = [].
Proof.
  assert (Halloc : closures_allocated
                     (fresh_world grid (sample_container 0 0))).
  { intros h Hin. simpl in Hin. destruct Hin. }
  destruct (disable_undoes_enable
              (fresh_world grid (sample_container 0 0)) Halloc)
    as (Hl & _).
  exact Hl.
Defined.

(** [disable()] removes the closure kept in [keydownHandler] only. After two
    [enable()] calls it removes the second closure; the first one stays
    registered, with the navigator marked disabled, and a further
    [disable()] does not remove it either. *)
Theorem disable_forgets_first_handler (w : World) :
  closures_allocated w ->
  let w2 := disable (enable (enable w)) in
  listeners w2 = (listeners w ++ [next_closure w])%list
  /\ enabled (nav w2) = Some false
  /\ listeners (disable w2) = listeners w2.
Proof.
  intros Halloc w2. subst w2.
  destruct (enable_listeners w Halloc) as (Hl1 & Hn1 & _ & _ & Halloc1).
  destruct (enable_listeners (enable w) Halloc1) as (Hl2 & _ & Hh2 & _).
  destruct (disable_wiring (enable (enable w)))
    as (Hd & _ & Hkeep & He & _).
  assert (Hleft : listeners (disable (enable (enable w)))
                  = (listeners w ++ [next_closure w])%list).
  { rewrite Hd, Hh2, Hl2, Hl1, Hn1, List.filter_app. simpl.
    rewrite Nat.eqb_refl. simpl. rewrite app_nil_r.
    apply removeEventListener_absent.
    intros Hin. apply in_app_or in Hin as [Hin | [Heq | []]].
    - apply Halloc in Hin. lia.
    - lia. }
  split; [exact Hleft|]. split; [exact He|].
  destruct (disable_wiring (disable (enable (enable w)))) as (Hd' & _).
  rewrite Hd', Hkeep, Hh2, Hd, Hh2. apply removeEventListener_twice.
Qed.

Lemma disable_forgets_first_handler_fresh :
  listeners
    (disable (enable (enable (fresh_world grid (sample_container 0 0)))))
  = [0%nat].
Proof.
  assert (Halloc : closures_allocated
                     (fresh_world grid (sample_container 0 0))).
  { intros h Hin. simpl in Hin. destruct Hin. }
  destruct (disable_forgets_first_handler
              (fresh_world grid (sample_container 0 0)) Halloc)
    as (Hl & _).
  exact Hl.
Defined.

Lemma unselect_without_element (w : World) :
  (forall e, selected (nav w) <> Elem e) ->
  classes (unselect w) = classes w
  /\ selected (nav (unselect w)) = selected (nav w).
Proof.
  intros Hnone. unfold unselect.
  destruct (selected (nav w)) as [|e|] eqn:Hsel; simpl.
  - now rewrite Hsel.
  - now destruct (Hnone e).
  - now split.
Qed.

Lemma disable_without_element (w : World) (e : Element) :
  selected (nav (disable w)) <> Elem e.
Proof.
  destruct (disable_unselect w) as (_ & _ & ->). unfold unselect.
  destruct (selected (nav w)) eqn:Hsel; simpl; rewrite ?Hsel; discriminate.
Qed.

Lemma destroy_disable (w : World) :
  domNavigator (destroy w) = false
  /\ nav (destroy w) = nav (disable w)
  /\ listeners (destroy w) = listeners (disable w)
  /\ classes (destroy w) = classes (disable w)
  /\ activeElement (destroy w) = activeElement (disable w)
  /\ scroll_state (destroy w) = scroll_state (disable w).
Proof.
  unfold destroy. destruct (domNavigator (disable w)) eqn:Hdn;
    now repeat split.
Qed.

Lemma disable_twice (w : World) :
  (forall e, selected (nav w) <> Elem e) ->
  (forall h, keydownHandler (nav w) = Some h -> ~ In h (listeners w)) ->
  listeners (disable w) = listeners w
  /\ classes (disable w) = classes w
  /\ activeElement (disable w) = activeElement w
  /\ selected (nav (disable w)) = selected (nav w)
  /\ scroll_state (disable w) = scroll_state w.
Proof.
  intros Hnone Hgone.
  destruct (disable_wiring w) as (Hl & _ & _ & _ & _ & Hs).
  destruct (disable_unselect w) as (Hc & Hf & Hsel).
  destruct (unselect_without_element w Hnone) as (Hc' & Hsel').
  destruct (unselect_frame w) as (_ & _ & _ & _ & Hf' & _).
  split; [|now rewrite Hc, Hc', Hf, Hf', Hsel, Hsel'].
  rewrite Hl. destruct (keydownHandler (nav w)) as [h|] eqn:Hh;
    [|reflexivity].
  apply removeEventListener_absent. now apply Hgone.
Qed.

Lemma disable_handler_gone (w : World) (h : nat) :
  keydownHandler (nav (disable w)) = Some h ->
  ~ In h (listeners (disable w)).
Proof.
  destruct (disable_wiring w) as (Hl & _ & Hh & _).
  rewrite Hl, Hh. intros ->. intros Hin.
  apply filter_In in Hin as (_ & Hne). now rewrite Nat.eqb_refl in Hne.
Qed.

(** [disable()] and [destroy()] can be repeated: a second call changes
    neither the listeners, nor the highlighted elements, the focus, the
    selection field, the enabled flag or the scroll positions; and
    [destroy()] leaves the container without its [domNavigator]
    property. *)
Theorem disable_destroy_idempotent (w : World) :
  (listeners (disable (disable w)) = listeners (disable w)
   /\ classes (disable (disable w)) = classes (disable w)
   /\ activeElement (disable (disable w)) = activeElement (disable w)
   /\ selected (nav (disable (disable w))) = selected (nav (disable w))
   /\ enabled (nav (disable (disable w))) = enabled (nav (disable w))
   /\ scroll_state (disable (disable w)) = scroll_state (disable w))
  /\ (domNavigator (destroy w) = false
      /\ listeners (destroy (destroy w)) = listeners (destroy w)
      /\ classes (destroy (destroy w)) = classes (destroy w)
      /\ activeElement (destroy (destroy w)) = activeElement (destroy w)
      /\ selected (nav (destroy (destroy w))) = selected (nav (destroy w))
      /\ enabled (nav (destroy (destroy w))) = enabled (nav (destroy w))
      /\ scroll_state (destroy (destroy w)) = scroll_state (destroy w)
      /\ domNavigator (destroy (destroy w)) = false).
Proof.
  split.
  - destruct (disable_twice (disable w) (disable_without_element w)
                (disable_handler_gone w))
      as (Hl & Hc & Hf & Hs & Hscroll).
    destruct (disable_wiring w) as (_ & _ & _ & He & _).
    destruct (disable_wiring (disable w)) as (_ & _ & _ & He' & _).
    rewrite Hl, Hc, Hf, Hs, Hscroll, He, He'. now repeat split.
  - destruct (destroy_disable w) as (Hdn & Hnav & Hl & Hc & _).
    destruct (destroy_disable (destroy w))
      as (Hdn' & Hnav' & Hl' & Hc' & Hf' & Hscroll').
    assert (Hnone : forall e, selected (nav (destroy w)) <> Elem e).
    { intros e. rewrite Hnav. apply disable_without_element. }
    assert (Hgone : forall h,
               keydownHandler (nav (destroy w)) = Some h ->
               ~ In h (listeners (destroy w))).
    { intros h. rewrite Hnav, Hl. apply disable_handler_gone. }
    destruct (disable_twice (destroy w) Hnone Hgone)
      as (Hl2 & Hc2 & Hf2 & Hs2 & Hscroll2).
    destruct (disable_wiring w) as (_ & _ & _ & He & _).
    destruct (disable_wiring (destroy w)) as (_ & _ & _ & He' & _).
    rewrite Hl', Hc', Hf', Hscroll', Hnav', Hl2, Hc2, Hf2, Hs2, Hscroll2,
      He', Hnav, He.
    now repeat split.
Qed.

(** ** Listeners in every reachable state *)

Lemma step_listeners_wellformed (w : World) (c : Call) (w' : World) :
  step w c w' -> listeners_wellformed w -> listeners_wellformed w'.
Proof.
  intros Hstep (Halloc & Hnodup & Hhandler).
  assert (Hwired : forall w1, same_wiring w w1 -> listeners_wellformed w1).
  { intros w1 (_ & Hl & Hn & _ & _ & Hh & _).
    unfold listeners_wellformed, closures_allocated.
    rewrite Hl, Hn, Hh. now repeat split. }
  assert (Hdisabled : listeners_wellformed (disable w)).
  { destruct (disable_wiring w) as (Hl & Hn & Hh & _).
    unfold listeners_wellformed, closures_allocated.
    rewrite Hl, Hn, Hh. split; [|split; [|exact Hhandler]].
    - destruct (keydownHandler (nav w)); [|exact Halloc].
      intros x Hin. apply filter_In in Hin as (Hin & _). now apply Halloc.
    - destruct (keydownHandler (nav w)); [|exact Hnodup].
      now apply List.NoDup_filter. }
  destruct Hstep.
  - destruct (enable_listeners w Halloc) as (Hl & Hn & Hh & _ & Halloc').
    split; [exact Halloc'|]. split.
    + rewrite Hl. apply List.NoDup_app; [exact Hnodup | |].
      * constructor; [intros [] | constructor].
      * intros x Hx [<- | []]. apply Halloc in Hx. lia.
    + intros h. rewrite Hh, Hn. intros [= <-]. lia.
  - exact Hdisabled.
  - destruct Hdisabled as (Ha & Hn & Hh).
    unfold destroy. destruct (domNavigator (disable w));
      now repeat split.
  - now repeat split.
  - apply Hwired, select_wiring.
  - apply Hwired, unselect_wiring.
  - apply Hwired.
    destruct (handleKeydown_result k w w' H) as [-> | (next & d & ->)].
    + repeat split.
    + apply (same_wiring_trans w
               (emit PreventDefault (log_info "handleKeydown" w)));
        [repeat split | apply select_wiring].
Qed.

(** In every state a navigator reaches, the registered listeners are
    distinct closures allocated earlier; hence every [enable()], in whatever
    state it is called, registers one listener more. *)
Theorem listeners_stay_wellformed (w0 w : World) :
  listeners_wellformed w0 ->
  reachable w0 w ->
  listeners_wellformed w
  /\ length (listeners (enable w)) = S (length (listeners w)).
Proof.
  intros Hstart Hreach.
  assert (Hinv : listeners_wellformed w).
  { induction Hreach as [|w c w' _ IH Hstep]; [exact Hstart|].
    exact (step_listeners_wellformed w c w' Hstep IH). }
  split; [exact Hinv|].
  destruct Hinv as (Halloc & _).
  destruct (enable_listeners w Halloc) as (Hl & _).
  rewrite Hl, length_app. simpl. lia.
Qed.

Lemma listeners_stay_wellformed_grid :
  length (listeners (enable grid_last_selected)) = 2%nat.
Proof.
  assert (Hstart : listeners_wellformed
                     (fresh_world grid (sample_container 0 0))).
  { split; [|split].
    - intros h Hin. simpl in Hin. destruct Hin.
    - simpl. constructor.
    - intros h Hh. simpl in Hh. discriminate Hh. }
  assert (Hreach : reachable (fresh_world grid (sample_container 0 0))
                     grid_last_selected).
  { eapply reachable_step; [eapply reachable_step|].
    - apply reachable_start.
    - apply step_enable.
    - apply step_select. }
  destruct (listeners_stay_wellformed _ _ Hstart Hreach) as (_ & Hlen).
  exact Hlen.
Defined.

(** ** The selection query *)

(** [selected()] never returns the selected element. While the field holds
    [null] or an element the call raises a [TypeError], so it does after
    every [select] of a new element; once [unselect] has deleted the field
    the call returns the method itself. *)
Theorem selected_method_never_an_element (w : World) :
  (forall e, selected_method (nav w) <> Ok (Elem e))
  /\ (forall el direction,
         is_selected el (selected (nav w)) = false ->
         selected_method (nav (select (Some el) direction w))
         = Throw TypeError)
  /\ (forall e,
         selected (nav w) = Elem e ->
         selected_method (nav w) = Throw TypeError
         /\ selected_method (nav (unselect w)) = Ok Method).
Proof.
  split; [|split].
  - intros e. unfold selected_method.
    destruct (selected (nav w)); discriminate.
  - intros el direction Hnew. unfold selected_method.
    now rewrite select_selected, Hnew.
  - intros e Hsel. unfold selected_method, unselect. rewrite Hsel.
    split; reflexivity.
Qed.

Lemma selected_method_never_an_element_grid :
  selected_method (nav grid_last_selected) = Throw TypeError
  /\ selected_method (nav (unselect grid_last_selected)) = Ok Method.
Proof.
  destruct (selected_method_never_an_element grid_last_selected)
    as (_ & _ & Hquery).
  exact (Hquery (item 3 100 50) eq_refl).
Defined.
